(** * keyhole, package mdb: the log parser of loginfo.go

    A shallow embedding of [mdb/loginfo.go] (slow-operation log parsing,
    query-shape canonicalization, aggregation and reporting) and the
    properties its specification states about it.

    Conventions of the embedding.
    - A Go [string] is a sequence of bytes: [list ascii].  A string literal
      of the source is written as a literal here and coerced.
    - A Go [int] is a mathematical integer in [Z]; the one place where the
      source does arithmetic that can leave the 64-bit range ([+] on
      counters) is written with the wrap-around [int_add].
    - An index expression or slice expression that is out of range panics
      in Go.  Functions that can panic return [option], [None] being the
      run-time panic.
    - [for _, r := range s] iterates over UTF-8 decoded runes while
      [s[i:j]] slices bytes; both are modelled, so that the places where
      the source counts runes and then slices bytes behave as in Go. *)

From Stdlib Require Import ZArith Ascii String List Bool Lia Floats Uint63.
From Stdlib Require Import Permutation Sorted.
From stdpp Require Import base list gmap strings.

Open Scope string_scope.
Open Scope list_scope.
Open Scope Z_scope.

Coercion list_ascii_of_string : string >-> list.

Abbreviation gostring := (list ascii).

(** ** Go strings *)

Module GoStr.

Definition byte (c : ascii) : Z := Z.of_nat (nat_of_ascii c).

Definition len (s : gostring) : Z := Z.of_nat (length s).

(** [s == t] *)
Fixpoint eqb (s t : gostring) : bool :=
  match s, t with
  | [], [] => true
  | a :: s', b :: t' => Ascii.eqb a b && eqb s' t'
  | _, _ => false
  end.

(** [strings.HasPrefix(s, p)] *)
Fixpoint HasPrefix (s p : gostring) {struct p} : bool :=
  match p, s with
  | [], _ => true
  | b :: p', a :: s' => Ascii.eqb a b && HasPrefix s' p'
  | _ :: _, [] => false
  end.

(** [strings.HasSuffix(s, p)] *)
Definition HasSuffix (s p : gostring) : bool := HasPrefix (rev s) (rev p).

(** The byte offset of the first occurrence of [sub] in [s], counted
    from [i]; [-1] when there is none. *)
Fixpoint IndexFrom (i : Z) (s sub : gostring) : Z :=
  if HasPrefix s sub then i
  else match s with
       | [] => -1
       | _ :: s' => IndexFrom (i + 1) s' sub
       end.

(** [strings.Index(s, sub)] *)
Definition Index (s sub : gostring) : Z := IndexFrom 0 s sub.

(** [s[lo:hi]]; panics unless [0 <= lo <= hi <= len(s)]. *)
Definition slice (s : gostring) (lo hi : Z) : option gostring :=
  if (0 <=? lo) && (lo <=? hi) && (hi <=? len s)
  then Some (firstn (Z.to_nat (hi - lo)) (skipn (Z.to_nat lo) s))
  else None.

(** [s[:hi]] and [s[lo:]] *)
Definition sliceTo (s : gostring) (hi : Z) : option gostring := slice s 0 hi.
Definition sliceFrom (s : gostring) (lo : Z) : option gostring := slice s lo (len s).

(** [s[i]]; panics when out of range. *)
Definition at_ (s : gostring) (i : Z) : option ascii :=
  if (0 <=? i) && (i <? len s) then nth_error s (Z.to_nat i) else None.

(** [strings.ReplaceAll(s, old, new)] for a non-empty [old]:
    non-overlapping occurrences, leftmost first. *)
Fixpoint ReplaceAllFrom (fuel : nat) (s old new : gostring) : gostring :=
  match fuel with
  | O => s
  | S fuel' =>
      if HasPrefix s old then new ++ ReplaceAllFrom fuel' (skipn (length old) s) old new
      else match s with
           | [] => []
           | a :: s' => a :: ReplaceAllFrom fuel' s' old new
           end
  end.

Definition ReplaceAll (s old new : gostring) : gostring :=
  ReplaceAllFrom (S (length s)) s old new.

(** *** Runes

    [utf8.DecodeRuneInString]: the value and the width in bytes of the
    first rune of a non-empty string.  An invalid or truncated encoding
    decodes as U+FFFD of width 1. *)

Record rune := Rune { rval : Z; rbytes : gostring }.

Definition RuneError : Z := 65533.

Definition cont (lo hi : Z) (c : ascii) : bool := (lo <=? byte c) && (byte c <=? hi).

Definition DecodeRune (s : gostring) : rune :=
  match s with
  | [] => Rune RuneError []
  | b0 :: t =>
      let x := byte b0 in
      let bad := Rune RuneError [b0] in
      if x <? 128 then Rune x [b0]
      else if (x <? 194) || (244 <? x) then bad
      else
        let sz := if x <? 224 then 2 else if x <? 240 then 3 else 4 in
        let lo := if x =? 224 then 160 else if x =? 240 then 144 else 128 in
        let hi := if x =? 237 then 159 else if x =? 244 then 143 else 191 in
        match t with
        | b1 :: t1 =>
            if negb (cont lo hi b1) then bad
            else if sz =? 2 then Rune (Z.lor (Z.shiftl (Z.land x 31) 6) (Z.land (byte b1) 63)) [b0; b1]
            else match t1 with
                 | b2 :: t2 =>
                     if negb (cont 128 191 b2) then bad
                     else if sz =? 3 then
                            Rune (Z.lor (Z.shiftl (Z.land x 15) 12)
                                    (Z.lor (Z.shiftl (Z.land (byte b1) 63) 6) (Z.land (byte b2) 63)))
                                 [b0; b1; b2]
                     else match t2 with
                          | b3 :: _ =>
                              if negb (cont 128 191 b3) then bad
                              else Rune (Z.lor (Z.shiftl (Z.land x 7) 18)
                                           (Z.lor (Z.shiftl (Z.land (byte b1) 63) 12)
                                              (Z.lor (Z.shiftl (Z.land (byte b2) 63) 6)
                                                 (Z.land (byte b3) 63))))
                                        [b0; b1; b2; b3]
                          | [] => bad
                          end
                 | [] => bad
                 end
        | [] => bad
        end
  end.

(** The runes [for _, r := range s] visits, in order. *)
Fixpoint runesFrom (fuel : nat) (s : gostring) : list rune :=
  match fuel, s with
  | S fuel', _ :: _ =>
      let r := DecodeRune s in
      r :: runesFrom fuel' (skipn (length (rbytes r)) s)
  | _, _ => []
  end.

Definition runes (s : gostring) : list rune := runesFrom (length s) s.

(** [r == c] for an ASCII character constant [c] *)
Definition runeIs (c : ascii) (r : rune) : bool := rval r =? byte c.

Definition unrunes (rs : list rune) : gostring := concat (map rbytes rs).

(** [unicode.IsSpace] *)
Definition IsSpace (r : rune) : bool :=
  let v := rval r in
  ((9 <=? v) && (v <=? 13)) || (v =? 32) || (v =? 133) || (v =? 160)
  || (v =? 5760) || ((8192 <=? v) && (v <=? 8202))
  || (v =? 8232) || (v =? 8233) || (v =? 8239) || (v =? 8287) || (v =? 12288).

(** [strings.Fields(s)]: the maximal runs of non-space runes. *)
Fixpoint fieldsAux (rs : list rune) (cur : list rune) : list gostring :=
  match rs with
  | [] => match cur with [] => [] | _ => [unrunes (rev cur)] end
  | r :: rs' =>
      if IsSpace r
      then match cur with
           | [] => fieldsAux rs' []
           | _ => unrunes (rev cur) :: fieldsAux rs' []
           end
      else fieldsAux rs' (r :: cur)
  end.

Definition Fields (s : gostring) : list gostring := fieldsAux (runes s) [].

(** [strings.TrimSpace(s)] *)
Fixpoint dropSpace (rs : list rune) : list rune :=
  match rs with
  | r :: rs' => if IsSpace r then dropSpace rs' else rs
  | [] => []
  end.

Definition TrimSpace (s : gostring) : gostring :=
  unrunes (rev (dropSpace (rev (dropSpace (runes s))))).

(** [s1 < s2] on strings: bytewise lexicographic order. *)
Fixpoint ltb (s t : gostring) : bool :=
  match s, t with
  | _, [] => false
  | [], _ :: _ => true
  | a :: s', b :: t' =>
      if byte a <? byte b then true
      else if byte b <? byte a then false
      else ltb s' t'
  end.

End GoStr.

(** ** Regular expressions

    The patterns of loginfo.go, as syntax trees, and the leftmost-first
    matching of Go's [regexp] package on them.  Every repetition in the
    source's patterns is over a single character class, so a repetition
    node carries a class.  Matching is by backtracking in priority order
    (greedy repetitions try the longest run first, alternations the left
    branch first), which is the match [regexp] reports. *)

Module Regexp.
Import GoStr.

Inductive re : Type :=
| Chr (c : ascii)                          (* a literal ASCII character *)
| Cls (p : rune -> bool)                   (* one rune of a class *)
| Rep (greedy atLeastOne : bool) (p : rune -> bool)   (* p* p+ p*? p+? *)
| Cat (r1 r2 : re)
| Alt (r1 r2 : re)
| Opt (r : re)                             (* r? *)
| Grp (n : nat) (r : re)                   (* the n-th capturing group *)
| Bol                                      (* ^ *)
| Eol.                                     (* $ *)

(** The literal text [s] *)
Fixpoint Str (s : gostring) : re :=
  match s with
  | [] => Opt (Rep true true (fun _ => false))
  | [c] => Chr c
  | c :: s' => Cat (Chr c) (Str s')
  end.

(** [r1 r2 ... rn] *)
Fixpoint Seq (rs : list re) : re :=
  match rs with
  | [] => Str []
  | [r] => r
  | r :: rs' => Cat r (Seq rs')
  end.

(** Character classes *)
Definition between (lo hi : ascii) (r : rune) : bool :=
  (byte lo <=? rval r) && (rval r <=? byte hi).
Definition dot (r : rune) : bool := negb (rval r =? 10).                    (* .  *)
Definition digit (r : rune) : bool := between "0" "9" r.                    (* \d *)
Definition word (r : rune) : bool :=                                        (* \w *)
  between "0" "9" r || between "A" "Z" r || between "a" "z" r || runeIs "_" r.
Definition space (r : rune) : bool :=                                       (* \s *)
  (rval r =? 9) || (rval r =? 10) || (rval r =? 12) || (rval r =? 13) || (rval r =? 32).
Definition nonspace (r : rune) : bool := negb (space r).                    (* \S *)
Definition notChr (c : ascii) (r : rune) : bool := negb (runeIs c r).       (* [^c] *)

(** Captured groups: the text of group [n], most recent first. *)
Definition caps := list (nat * list rune).

Fixpoint group (cs : caps) (n : nat) : list rune :=
  match cs with
  | [] => []
  | (k, t) :: cs' => if Nat.eqb k n then t else group cs' n
  end.

Section Match.
Context {R : Type}.
(** The number of runes of the whole text, for [^]. *)
Variable total : nat.

Fixpoint repGreedy (p : rune -> bool) (s : list rune)
  (k : list rune -> option R) : option R :=
  match s with
  | r :: s' =>
      if p r then
        match repGreedy p s' k with
        | Some x => Some x
        | None => k s
        end
      else k s
  | [] => k s
  end.

Fixpoint repLazy (p : rune -> bool) (s : list rune)
  (k : list rune -> option R) : option R :=
  match k s with
  | Some x => Some x
  | None =>
      match s with
      | r :: s' => if p r then repLazy p s' k else None
      | [] => None
      end
  end.

(** [matchRe r s cs k]: match [r] at the front of [s], then continue
    with [k] on what is left; on failure of [k] the next alternative
    in priority order is tried. *)
Fixpoint matchRe (r : re) (s : list rune) (cs : caps)
  (k : list rune -> caps -> option R) : option R :=
  match r with
  | Chr c =>
      match s with
      | x :: s' => if runeIs c x then k s' cs else None
      | [] => None
      end
  | Cls p =>
      match s with
      | x :: s' => if p x then k s' cs else None
      | [] => None
      end
  | Rep greedy atLeastOne p =>
      let body t := if greedy then repGreedy p t (fun u => k u cs)
                    else repLazy p t (fun u => k u cs) in
      if atLeastOne then
        match s with
        | x :: s' => if p x then body s' else None
        | [] => None
        end
      else body s
  | Cat r1 r2 => matchRe r1 s cs (fun s' cs' => matchRe r2 s' cs' k)
  | Alt r1 r2 =>
      match matchRe r1 s cs k with
      | Some x => Some x
      | None => matchRe r2 s cs k
      end
  | Opt r1 =>
      match matchRe r1 s cs k with
      | Some x => Some x
      | None => k s cs
      end
  | Grp n r1 =>
      matchRe r1 s cs
        (fun s' cs' => k s' ((n, firstn (length s - length s') s) :: cs'))
  | Bol => if Nat.eqb (length s) total then k s cs else None
  | Eol => match s with [] => k s cs | _ => None end
  end.
End Match.

(** A match of [r] starting exactly at the front of [s]: what is left of
    the text after the match, and the groups. *)
Definition matchHere (total : nat) (r : re) (s : list rune) : option (list rune * caps) :=
  matchRe total r s [] (fun s' cs => Some (s', (O, firstn (length s - length s') s) :: cs)).

(** The leftmost match. *)
Fixpoint findFrom (total : nat) (r : re) (s : list rune) : option caps :=
  match matchHere total r s with
  | Some (_, cs) => Some cs
  | None =>
      match s with
      | [] => None
      | _ :: s' => findFrom total r s'
      end
  end.

(** [re.FindStringSubmatch(s)]: [None] is the nil slice of no match;
    otherwise the function gives the text of each group (empty for a
    group that took no part in the match). *)
Definition FindStringSubmatch (r : re) (s : gostring) : option (nat -> gostring) :=
  let rs := runes s in
  match findFrom (length rs) r rs with
  | Some cs => Some (fun n => unrunes (group cs n))
  | None => None
  end.

(** [re.MatchString(s)] *)
Definition MatchString (r : re) (s : gostring) : bool :=
  match FindStringSubmatch r s with Some _ => true | None => false end.

(** A replacement template: literal text and [$n] group references. *)
Inductive piece : Type :=
| Text (t : gostring)
| Ref (n : nat).

Definition expand (tpl : list piece) (cs : caps) : gostring :=
  concat (map (fun p => match p with
                        | Text t => t
                        | Ref n => unrunes (group cs n)
                        end) tpl).

(** [re.ReplaceAllString(s, tpl)], for a pattern that matches no empty
    string (all patterns of loginfo.go that are used for replacement):
    the matches are taken left to right, each search resuming where the
    previous match ended. *)
Fixpoint replaceFrom (fuel total : nat) (r : re) (tpl : list piece) (s : list rune) : gostring :=
  match fuel with
  | O => unrunes s
  | S fuel' =>
      match s with
      | [] => []
      | x :: s' =>
          match matchHere total r s with
          | Some (rest, cs) =>
              if Nat.ltb (length rest) (length s)
              then expand tpl cs ++ replaceFrom fuel' total r tpl rest
              else rbytes x ++ replaceFrom fuel' total r tpl s'
          | None => rbytes x ++ replaceFrom fuel' total r tpl s'
          end
      end
  end.

Definition ReplaceAllString (r : re) (s : gostring) (tpl : list piece) : gostring :=
  let rs := runes s in
  replaceFrom (length rs) (length rs) r tpl rs.

End Regexp.

(** ** Sorting

    [sort.Slice] is not part of the repository.  Its documentation
    promises a slice sorted by the given [less] and nothing more ("the
    sort is not guaranteed to be stable").  The parser is therefore
    parameterised by the sorting function, and the two algorithms the Go
    runtime has used for slices of at most 12 elements are given as
    instances. *)

Module GoSort.
Section Sorts.
Context {A : Type}.
Variable less : A -> A -> bool.

(** One round of the inner loop of [insertionSort]:
    [for j := i; j > a && less(j, j-1); j-- { swap(j, j-1) }],
    on the already treated elements held in reverse (nearest first). *)
Fixpoint sink (x : A) (before : list A) : list A :=
  match before with
  | [] => [x]
  | y :: before' => if less x y then y :: sink x before' else x :: before
  end.

(** [insertionSort(data, 0, n)] *)
Definition insertionSort (l : list A) : list A :=
  rev (fold_left (fun before x => sink x before) l []).

(** [data.Swap(i, j)] *)
Definition swap (l : list A) (i j : nat) : list A :=
  match l !! i, l !! j with
  | Some x, Some y => <[j:=x]> (<[i:=y]> l)
  | _, _ => l
  end.

(** [for i := a + 6; i < b; i++ { if less(i, i-6) { swap(i, i-6) } }] *)
Definition shellPass (l : list A) : list A :=
  fold_left
    (fun l i =>
       match l !! i, l !! (i - 6)%nat with
       | Some x, Some y => if less x y then swap l i (i - 6)%nat else l
       | _, _ => l
       end)
    (seq 6 (length l - 6)) l.

(** What [sort.Slice] runs on a slice of at most 12 elements since
    Go 1.19 (pdqsort: [insertionSort] alone). *)
Definition sortSliceInsertion (l : list A) : list A := insertionSort l.

(** What [sort.Slice] runs on a slice of at most 12 elements up to
    Go 1.18 (quickSort: one ShellSort pass with gap 6, then
    [insertionSort]). *)
Definition sortSliceShell (l : list A) : list A := insertionSort (shellPass l).

(** [l] is ordered for [less]: no element is less than one before it. *)
Fixpoint ordered (l : list A) : bool :=
  match l with
  | [] => true
  | x :: l' => forallb (fun y => negb (less y x)) l' && ordered l'
  end.
End Sorts.
End GoSort.

(** ** The data of loginfo.go *)

Module Mdb.
Import GoStr.

(** [const COLLSCAN = "COLLSCAN"] *)
Definition COLLSCAN : gostring := "COLLSCAN".

(** Go's [int] on a 64-bit platform. *)
Definition maxInt : Z := 2 ^ 63 - 1.
Definition minInt : Z := - 2 ^ 63.
Definition wrap (z : Z) : Z := (z + 2 ^ 63) mod 2 ^ 64 - 2 ^ 63.
Definition int_add (a b : Z) : Z := wrap (a + b).

(** [type OpPerformanceDoc struct] *)
Record OpPerformanceDoc := mkOpPerformanceDoc {
  Command : gostring;
  Count : Z;
  Filter : gostring;
  MaxMilli : Z;
  Namespace : gostring;
  Scan : gostring;
  TotalMilli : Z;
  Index : gostring
}.

(** [type SlowOps struct] *)
Record SlowOps := mkSlowOps {
  Milli : Z;
  Log : gostring
}.

(** [type LogInfo struct]; the fields with a lower-case name are the
    unexported ones. *)
Record LogInfo := mkLogInfo {
  OpsPatterns : list OpPerformanceDoc;
  OutputFilename : gostring;
  SlowOpsList : list SlowOps;          (* SlowOps *)
  collscan : bool;
  filename : gostring;
  mongoInfo : gostring;
  silent : bool;
  verbose : bool
}.

(** [type LogInfoLineAnalytics struct] *)
Record LogInfoLineAnalytics := mkLogInfoLineAnalytics {
  aNamespace : gostring;
  aCommand : gostring;
  QueryPattern : gostring;
  aCount : Z;
  MinMilliseconds : Z;
  MaxMilliseconds : Z;
  AvgMilliseconds : float;
  TotalMilliseconds : Z;
  IsCollectionScan : bool;
  IndexUsed : gostring
}.

(** [float64(n)] for an [int] *)
Definition float64 (n : Z) : float :=
  if n =? minInt then PrimFloat.opp (PrimFloat.mul (PrimFloat.of_uint63 (Uint63.of_Z (2 ^ 62))) (PrimFloat.of_uint63 2))
  else if n <? 0 then PrimFloat.opp (PrimFloat.of_uint63 (Uint63.of_Z (- n)))
  else PrimFloat.of_uint63 (Uint63.of_Z n).

(** [x > y] on float64 *)
Definition fgt (x y : float) : bool := PrimFloat.ltb y x.

(** [ConverOpPerformanceDocumentToLogInfoLineAnalytics]: the fields the
    function does not assign keep the zero value of the composite
    literal [LogInfoLineAnalytics{}]. *)
Definition ConverOpPerformanceDocumentToLogInfoLineAnalytics
  (value : OpPerformanceDoc) : LogInfoLineAnalytics :=
  {| QueryPattern := Filter value;
     aCommand := Command value;
     aNamespace := Namespace value;
     TotalMilliseconds := TotalMilli value;
     aCount := Count value;
     AvgMilliseconds := PrimFloat.div (float64 (TotalMilli value)) (float64 (Count value));
     IsCollectionScan := eqb (Scan value) COLLSCAN;
     IndexUsed := if negb (eqb (Index value) "") then Index value else "";
     MinMilliseconds := 0;
     MaxMilliseconds := 0 |}.

(** [NewLogInfo(filename, exportType)] with [filepath.Base] given as
    the base name of the file. *)
Definition NewLogInfo (fname base : gostring) : LogInfo :=
  let out := if HasSuffix base ".gz"
             then firstn (length base - 3) base else base in
  {| OpsPatterns := []; OutputFilename := out ++ ".enc"; SlowOpsList := [];
     collscan := false; filename := fname; mongoInfo := "";
     silent := false; verbose := false |}.

(** [var filters] and [hasFilter] *)
Definition filters : list gostring :=
  [ "count" : gostring; "delete" : gostring; "find" : gostring; "remove" : gostring;
    "update" : gostring; "aggregate" : gostring; "getMore" : gostring;
    "getmore" : gostring; "findAndModify" : gostring ].

Definition hasFilter (op : gostring) : bool := existsb (fun f => eqb f op) filters.

(** The loop of [removeInElements]: the value [epos] has when the loop
    ends, [cnt] being the counter on entry. *)
Fixpoint closingBracket (rs : list rune) (idx cnt : Z) : Z :=
  match rs with
  | [] => -1
  | r :: rs' =>
      if cnt <? idx then closingBracket rs' idx (cnt + 1)
      else if runeIs "]" r then cnt
      else closingBracket rs' idx (cnt + 1)
  end.

(** [removeInElements(str, instr)] *)
Definition removeInElements (str instr : gostring) : option gostring :=
  let idx := GoStr.Index str instr in
  if idx <? 0 then Some str
  else
    let idx := idx + len instr - 1 in
    let epos := closingBracket (runes str) idx (-1) in
    if epos =? -1 then
      head ← sliceTo str idx; Some (head ++ "...]")
    else
      head ← sliceTo str idx; tail ← sliceFrom str epos; Some (head ++ "..." ++ tail).

(** *** The patterns of [Parse] and [getConfigOptions]

    In the comments that quote a pattern, a space is put between a
    star and a closing parenthesis that follows it, and QUOTE stands
    for the double-quote character. *)

Import Regexp.

Definition dquote : ascii := "034"%char.
Definition newline : ascii := "010"%char.

Definition plus (p : rune -> bool) : re := Rep true true p.          (* p+  *)
Definition star (p : rune -> bool) : re := Rep true false p.         (* p*  *)
Definition plusLazy (p : rune -> bool) : re := Rep false true p.     (* p+? *)

(** [^\S+ \S+\s+(\w+)\s+\[\w+\] (\w+) (\S+) \S+: (.* ) (\d+)ms$] *)
Definition matched : re :=
  Seq [ Bol; plus nonspace; Chr " "; plus nonspace; plus space;
        Grp 1 (plus word); plus space; Chr "["; plus word; Chr "]"; Chr " ";
        Grp 2 (plus word); Chr " "; Grp 3 (plus nonspace); Chr " ";
        plus nonspace; Chr ":"; Chr " "; Grp 4 (star dot); Chr " ";
        Grp 5 (plus digit); Str "ms"; Eol ].

(** [^(\w+) ({.*})$] *)
Definition reCommand : re :=
  Seq [ Bol; Grp 1 (plus word); Chr " ";
        Grp 2 (Seq [ Chr "{"; star dot; Chr "}" ]); Eol ].

(** [(: QUOTE[^QUOTE]*QUOTE|: -?\d+(\.\d+)?|: new Date\(\d+?\)|: true|: false)] *)
Definition reLiteral : re :=
  Grp 1
    (Alt (Seq [ Str ": "; Chr dquote; star (notChr dquote); Chr dquote ])
    (Alt (Seq [ Str ": "; Opt (Chr "-"); plus digit;
                Opt (Grp 2 (Seq [ Chr "."; plus digit ])) ])
    (Alt (Seq [ Str ": new Date("; plusLazy digit; Chr ")" ])
    (Alt (Str ": true") (Str ": false"))))).

(** [, shardVersion: \[.*\]] *)
Definition reShardVersion : re :=
  Seq [ Str ", shardVersion: ["; star dot; Chr "]" ].

(** [( ObjectId\('\S+'\))|(UUID\(QUOTE\S+QUOTE\))|( Timestamp\(\d+, \d+\))|(BinData\(\d+, \S+\))] *)
Definition reIdentifier : re :=
  Alt (Grp 1 (Seq [ Str " ObjectId('"; plus nonspace; Str "')" ]))
 (Alt (Grp 2 (Seq [ Str "UUID("; Chr dquote; plus nonspace; Chr dquote; Chr ")" ]))
 (Alt (Grp 3 (Seq [ Str " Timestamp("; plus digit; Str ", "; plus digit; Chr ")" ]))
      (Grp 4 (Seq [ Str "BinData("; plus digit; Str ", "; plus nonspace; Chr ")" ])))).

(** [(: \/.*\/(.?) })] *)
Definition reRegexLiteral : re :=
  Grp 1 (Seq [ Str ": /"; star dot; Chr "/"; Grp 2 (Opt (Cls dot)); Str " }" ]).

(** [^\S+ .? CONTROL\s+\[\w+\] (\w+(:)?) (.* )$] *)
Definition reControl : re :=
  Seq [ Bol; plus nonspace; Chr " "; Opt (Cls dot); Str " CONTROL"; plus space;
        Chr "["; plus word; Chr "]"; Chr " ";
        Grp 1 (Seq [ plus word; Opt (Grp 2 (Chr ":")) ]); Chr " ";
        Grp 3 (star dot); Eol ].

(** [((\S+):)] *)
Definition reOptionKey : re := Grp 1 (Seq [ Grp 2 (plus nonspace); Chr ":" ]).

(** *** Control flow of the loop body

    An iteration of the loop of [Parse] ends by reaching the end of
    the body, by [continue], or by a run-time panic. *)

Inductive outcome (A : Type) : Type :=
| Done (a : A)
| Continue
| Panic.
Arguments Done {A} a.
Arguments Continue {A}.
Arguments Panic {A}.

Definition bindOutcome {A B : Type} (f : A -> outcome B) (o : outcome A) : outcome B :=
  match o with
  | Done a => f a
  | Continue => Continue
  | Panic => Panic
  end.

#[global] Instance outcome_bind : MBind outcome := @bindOutcome.
#[global] Instance outcome_ret : MRet outcome := @Done.

(** A slice or index expression: its value, or the panic. *)
Definition must {A : Type} (o : option A) : outcome A :=
  match o with
  | Some a => Done a
  | None => Panic
  end.

(** [strconv.Atoi(ms)] on a string of decimal digits, the error
    dropped: on overflow [Atoi] returns the largest [int]. *)
Fixpoint digitsValue (acc : Z) (s : gostring) : Z :=
  match s with
  | [] => acc
  | c :: s' => digitsValue (10 * acc + (byte c - 48)) s'
  end.

Definition Atoi (s : gostring) : Z := Z.min (digitsValue 0 s) maxInt.

(** The scan of [Parse] over [result[4]] for the end of the first
    brace-delimited payload: the value of [epos] when the loop ends. *)
Fixpoint payloadEnd (rs : list rune) (isFound : bool) (bpos epos : Z) : Z :=
  match rs with
  | [] => epos
  | r :: rs' =>
      let epos := epos + 1 in
      let '(isFound, bpos) :=
        if negb isFound && runeIs "{" r then (true, bpos + 1)
        else if isFound then
               (isFound, if runeIs "{" r then bpos + 1
                         else if runeIs "}" r then bpos - 1
                         else bpos)
             else (isFound, bpos) in
      if isFound && (bpos =? 0) then epos else payloadEnd rs' isFound bpos epos
  end.

(** The loop of the [$regex] redaction: the runes before the first
    [}]. *)
Fixpoint untilBrace (rs : list rune) (cnt : Z) : Z :=
  match rs with
  | [] => cnt
  | r :: rs' => if runeIs "}" r then cnt else untilBrace rs' (cnt + 1)
  end.

(** What a line contributes: the operation, namespace, canonical
    filter, scan type, index and duration of lines 495-518. *)
Record shape := mkShape {
  sOp : gostring;
  sNs : gostring;
  sFilter : gostring;
  sScan : gostring;
  sIndex : gostring;
  sMilli : Z
}.

(** [key := op + "." + filter + "." + scan] *)
Definition shapeKey (sh : shape) : gostring :=
  sOp sh ++ "." ++ sFilter sh ++ "." ++ sScan sh.

Section Parse.

(** [gox.NewMongoLog(str).Get(key)], of the package
    github.com/simagix/gox, which is not part of the repository. *)
Variable Get : gostring -> gostring -> gostring.

(** [getDocByField(str, key)] *)
Definition getDocByField (str key : gostring) : gostring := Get str key.

(** The part of the loop body of [reorderFilterFields] before the
    lookup: the field name it goes on with, [None] for [continue]. *)
Definition fieldName (field : gostring) : option (option gostring) :=
  if negb (HasSuffix field ":") then Some None
  else
    field ← sliceTo field (len field - 1);
    c ← at_ field 0;
    field ← (if Ascii.eqb c " " then sliceFrom field 1 else Some field);
    c ← at_ field 0;
    field ← (if Ascii.eqb c "{" then sliceFrom field 1 else Some field);
    c ← at_ field 0;
    if Ascii.eqb c "$" then Some None else Some (Some field).

(** The loop [for _, field := range fields] filling the map [m]. *)
Fixpoint collectFields (mlog : gostring) (fields : list gostring)
  (m : gmap gostring gostring) : option (gmap gostring gostring) :=
  match fields with
  | [] => Some m
  | field :: rest =>
      name ← fieldName field;
      match name with
      | None => collectFields mlog rest m
      | Some field =>
          let v := Get mlog (field ++ ":") in
          if negb (eqb v "") then
            if 0 <=? GoStr.Index field " " then collectFields mlog rest m
            else collectFields mlog rest (<[field := v]> m)
          else collectFields mlog rest m
      end
  end.

(** [sort.Strings(keys)].  The keys of a map are distinct and the
    order on strings is total, so the sorted slice is the same
    whatever the algorithm. *)
Definition sortStrings (keys : list gostring) : list gostring :=
  GoSort.insertionSort GoStr.ltb keys.

(** The loop [for i, k := range keys] building the text. *)
Fixpoint joinFields (m : gmap gostring gostring) (first : bool)
  (keys : list gostring) : gostring :=
  match keys with
  | [] => []
  | k :: keys' =>
      (if first then [] else ", " : gostring)
        ++ k ++ ": " ++ TrimSpace (default [] (m !! k))
        ++ joinFields m false keys'
  end.

(** [reorderFilterFields(str)] *)
Definition reorderFilterFields (str : gostring) : option gostring :=
  filter ← slice str 1 (len str - 1);
  let filter := ReplaceAll filter ":" ": " in
  let fields := Fields filter in
  m ← collectFields filter fields ∅;
  let keys := sortStrings (map fst (map_to_list m)) in
  Some ("{" ++ joinFields m true keys ++ "}").

(** Lines 468-471 of [Parse]. *)
Definition truncateEnumerations (filter : gostring) : option gostring :=
  filter ← removeInElements filter "$in: [ ";
  filter ← removeInElements filter "$nin: [ ";
  filter ← removeInElements filter "$in: [ ";
  removeInElements filter "$nin: [ ".

(** Lines 473-483 of [Parse]. *)
Definition redactRegex (filter : gostring) : option gostring :=
  let isRegex := GoStr.Index filter "{ $regex: " in
  if 0 <=? isRegex then
    rest ← sliceFrom filter isRegex;
    let cnt := untilBrace (runes rest) 0 in
    head ← sliceTo filter (isRegex + 10);
    tail ← sliceFrom filter (isRegex + cnt);
    Some (head ++ "/.../.../" ++ tail)
  else Some filter.

(** Lines 484-492 of [Parse]. *)
Definition replaceLiterals (filter : gostring) : gostring :=
  let filter := ReplaceAllString reLiteral filter [Text ":1"] in
  let filter := ReplaceAllString reShardVersion filter [Text ""] in
  let filter := ReplaceAllString reIdentifier filter [Text "1"] in
  let filter := ReplaceAllString reRegexLiteral filter [Text ": /regex/"; Ref 2; Text "}"] in
  ReplaceAll (ReplaceAll filter "{ " "{") " }" "}".

(** Lines 468-493 of [Parse]: the passes from the truncation of the
    enumerations to the reordering of the fields. *)
Definition canonicalize (filter : gostring) : option gostring :=
  filter ← truncateEnumerations filter;
  filter ← redactRegex filter;
  reorderFilterFields (replaceLiterals filter).

Definition nonEmpty (s : gostring) : bool := negb (eqb s "").

(** The loops [for _, mstr := range []string{...}] of [Parse]: the
    value of [s] when the loop ends. *)
Fixpoint firstDoc (body : gostring) (markers : list gostring) : gostring :=
  match markers with
  | [] => []
  | mstr :: rest =>
      let s := getDocByField body mstr in
      if nonEmpty s then s else firstDoc body rest
  end.

(** Lines 421-429: the suffix for the [$group] and [$sort] stages. *)
Definition stagesOf (body : gostring) : gostring :=
  let x := GoStr.Index body "$group: " in
  let y := GoStr.Index body "$sort: " in
  let aggStages : gostring :=
    if (0 <? x) && ((x <? y) || (y <? 0))
    then ", group: " ++ ReplaceAll (getDocByField body "$group: ") "1.0" "1"
    else [] in
  let srt := getDocByField body "$sort: " in
  if nonEmpty srt then aggStages ++ ", sort: " ++ ReplaceAll srt "1.0" "1"
  else aggStages.

(** Lines 384-457: the filter of the operation [op] and the suffix
    [aggStages]; [body] is [result[4]]. *)
Definition opFilter (scan op filter body : gostring) : outcome (gostring * gostring) :=
  if eqb op "delete" && (0 <=? GoStr.Index filter "writeConcern:") then Continue
  else if eqb op "find" then
    let nstr : gostring := "{ }" in
    let s := getDocByField filter "filter: " in
    let nstr := if nonEmpty s then s else nstr in
    let s := getDocByField filter "sort: " in
    let nstr := if nonEmpty s then nstr ++ ", sort: " ++ s else nstr in
    Done (nstr, [])
  else if eqb op "count" || eqb op "distinct" then
    let nstr : gostring := "" in
    let s := getDocByField filter "query: " in
    let nstr := if nonEmpty s then s else nstr in
    Done (nstr, [])
  else if eqb op "delete" || eqb op "update" || eqb op "remove" || eqb op "findAndModify" then
    let s := if 0 <=? GoStr.Index filter "query: "
             then getDocByField filter "query: "
             else getDocByField filter "q: " in
    Done (if nonEmpty s then s else filter, [])
  else if eqb op "aggregate" || (eqb op "getmore" && (0 <? GoStr.Index filter "pipeline:")) then
    let s := firstDoc body [ "pipeline: [ { $match: " : gostring; "pipeline: [ { $sort: " : gostring ] in
    if nonEmpty s then Done (s, stagesOf body)
    else if eqb scan "COLLSCAN" then Done ("{}" : gostring, [])
    else Continue
  else if eqb op "getMore" || eqb op "getmore" then
    let s := getDocByField body "originatingCommand: " in
    if nonEmpty s then
      let s := firstDoc body [ "filter: " : gostring; "pipeline: [ { $match: " : gostring;
                               "pipeline: [ { $sort: " : gostring ] in
      if nonEmpty s then Done (s, []) else Continue
    else Continue
  else Done (filter, []).

(** Lines 458-467: the index named by the plan summary. *)
Definition indexOf (scan str : gostring) : gostring :=
  let index := getDocByField str "planSummary: IXSCAN" in
  let index : gostring :=
    if eqb index "" && (0 <=? GoStr.Index str "planSummary: EOF") then "EOF" else index in
  let index : gostring :=
    if eqb index "" && (0 <=? GoStr.Index str "planSummary: IDHACK") then "IDHACK" else index in
  if eqb scan "" && (0 <=? GoStr.Index str "planSummary: COUNT_SCAN") then "COUNT_SCAN" else index.

(** Lines 332-334: the scan type of the line [str]. *)
Definition scanOf (str : gostring) : gostring :=
  if 0 <=? GoStr.Index str "COLLSCAN" then COLLSCAN else "".

(** Lines 368-379: the unwrapping of [command: <verb> {payload}]. *)
Definition unwrapCommand (op filter : gostring) : outcome (gostring * gostring) :=
  if eqb op "command" then
    let idx := GoStr.Index filter "command: " in
    filter ← (if 0 <? idx then must (sliceFrom filter (idx + len "command: "))
              else Done filter);
    match FindStringSubmatch reCommand filter with
    | None => Continue
    | Some res => Done (res 1%nat, res 2%nat)
    end
  else Done (op, filter).

(** Lines 332-497 of [Parse]: the body of the loop for a line [str]
    that [matched] matches with the groups [result], up to the
    values the tracker and the aggregator receive. *)
Definition extractShape (collscanOnly : bool) (str : gostring)
  (result : nat -> gostring) : outcome shape :=
  let scan := scanOf str in
  if collscanOnly && negb (eqb scan COLLSCAN) then Continue
  else
    let body := result 4%nat in
    let epos := payloadEnd (runes body) false 0 0 in
    let op := result 2%nat in
    let ns := result 3%nat in
    if eqb ns "local.oplog.rs" || HasSuffix ns ".$cmd" then Continue
    else
      filter ← must (sliceTo body epos);
      let ms := result 5%nat in
      '(op, filter) ← unwrapCommand op filter;
      if negb (hasFilter op) then Continue
      else
        '(filter, aggStages) ← opFilter scan op filter body;
        let index := indexOf scan str in
        filter ← must (canonicalize filter);
        let filter := filter ++ aggStages in
        Done {| sOp := op; sNs := ns; sFilter := filter; sScan := scan;
                sIndex := index; sMilli := Atoi ms |}.

(** *** The tracker and the aggregator *)

(** [sort.Slice]; see [GoSort]. *)
Variable sortSlice : forall A : Type, (A -> A -> bool) -> list A -> list A.

(** [func(i, j int) bool { return li.SlowOps[i].Milli > li.SlowOps[j].Milli }] *)
Definition slower (a b : SlowOps) : bool := Milli a >? Milli b.

(** Lines 498-506.  [li.SlowOps[9]] is evaluated only when the slice
    has at least 10 elements. *)
Definition trackSlowOp (ops : list SlowOps) (milli : Z) (str : gostring) : list SlowOps :=
  let isSlower :=
    match ops !! 9%nat with
    | Some ninth => milli >? Milli ninth
    | None => false
    end in
  if (Z.of_nat (length ops) <? 10) || isSlower then
    let ops := ops ++ [ {| Milli := milli; Log := str |} ] in
    let ops := sortSlice SlowOps slower ops in
    if Z.of_nat (length ops) >? 10 then firstn 10 ops else ops
  else ops.

(** Lines 508-518: the update of [opsMap] for the key [key]. *)
Definition updateOps (opsMap : gmap gostring OpPerformanceDoc)
  (key op ns filter scan index : gostring) (milli : Z) : gmap gostring OpPerformanceDoc :=
  match opsMap !! key with
  | Some old =>
      let max := MaxMilli old in
      let max := if milli >? max then milli else max in
      let x := int_add (TotalMilli old) milli in
      let y := int_add (Count old) 1 in
      <[key := {| Command := Command old; Namespace := ns; Filter := Filter old;
                  MaxMilli := max; TotalMilli := x; Count := y;
                  Scan := scan; Index := index |}]> opsMap
  | None =>
      <[key := {| Command := op; Namespace := ns; Filter := filter;
                  TotalMilli := milli; MaxMilli := milli; Count := 1;
                  Scan := scan; Index := index |}]> opsMap
  end.

(** The state the loop of [Parse] carries: [li.SlowOps] and [opsMap]. *)
Record pstate := mkPstate {
  slowOps : list SlowOps;
  opsMap : gmap gostring OpPerformanceDoc
}.

(** Lines 495-518: what a line that got through the extraction does
    to the state. *)
Definition record (st : pstate) (str : gostring) (sh : shape) : pstate :=
  {| slowOps := trackSlowOp (slowOps st) (sMilli sh) str;
     opsMap := updateOps (opsMap st) (shapeKey sh) (sOp sh) (sNs sh) (sFilter sh)
                 (sScan sh) (sIndex sh) (sMilli sh) |}.

(** One iteration of the loop of [Parse] on the reassembled line
    [str]; [None] is a panic. *)
Definition parseLine (collscanOnly : bool) (st : pstate) (str : gostring) : option pstate :=
  match FindStringSubmatch matched str with
  | None => Some st
  | Some result =>
      match extractShape collscanOnly str result with
      | Done sh => Some (record st str sh)
      | Continue => Some st
      | Panic => None
      end
  end.

(** The loop of [Parse] over the lines of the file. *)
Fixpoint parseLines (collscanOnly : bool) (st : pstate) (lines : list gostring) : option pstate :=
  match lines with
  | [] => Some st
  | str :: rest =>
      st ← parseLine collscanOnly st str;
      parseLines collscanOnly st rest
  end.

(** [json.Indent], of the standard library. *)
Variable jsonIndent : gostring -> gostring.

(** [getConfigOptions(reader)] over the lines [reader.ReadLine]
    returns. *)
Fixpoint getConfigOptions (lines : list gostring) : list gostring :=
  match lines with
  | [] => []
  | buf :: rest =>
      match FindStringSubmatch reControl buf with
      | Some result =>
          if eqb (result 1%nat) "db" then ("db " ++ result 3%nat) :: getConfigOptions rest
          else if eqb (result 1%nat) "options:" then
            let body := ReplaceAllString reOptionKey (result 3%nat)
                          [Text [dquote]; Ref 1; Text (dquote :: ":")] in
            [ "config options:" : gostring; jsonIndent body ]
          else getConfigOptions rest
      | None => getConfigOptions rest
      end
  end.

(** The order in which [for _, value := range opsMap] visits the
    values of the map; Go leaves it unspecified. *)
Variable rangeValues : gmap gostring OpPerformanceDoc -> list OpPerformanceDoc.

(** The [less] of line 526. *)
Definition greaterAverage (a b : OpPerformanceDoc) : bool :=
  fgt (PrimFloat.div (float64 (TotalMilli a)) (float64 (Count a)))
      (PrimFloat.div (float64 (TotalMilli b)) (float64 (Count b))).

(** A log file as [bufio.Reader.ReadLine] delivers it: every logical
    line is the sequence of the pieces the reader returns for it
    (all but the last with [isPrefix] set). *)
Definition logfile := list (list gostring).

(** [li.Parse()] on an opened file; [None] is a panic. *)
Definition Parse (li : LogInfo) (file : logfile) : option LogInfo :=
  let strs := getConfigOptions (concat file) in
  let info := concat (map (fun s => s ++ [newline]) strs) in
  st ← parseLines (collscan li) {| slowOps := SlowOpsList li; opsMap := ∅ |} (map (@concat ascii) file);
  Some {| OpsPatterns := sortSlice OpPerformanceDoc greaterAverage (rangeValues (opsMap st));
          OutputFilename := OutputFilename li;
          SlowOpsList := slowOps st;
          collscan := collscan li; filename := filename li; mongoInfo := info;
          silent := silent li; verbose := verbose li |}.


(** *** The cache artifact

    [encoding/gob] transmits the exported fields of a struct, and of
    those only the ones that differ from the zero value; decoding
    assigns the transmitted fields and leaves every other field of
    the target as it is.  The artifact is modelled by what the
    stream carries for a [LogInfo], not by its bytes. *)
Record gobLogInfo := mkGobLogInfo {
  gOpsPatterns : option (list OpPerformanceDoc);
  gOutputFilename : option gostring;
  gSlowOps : option (list SlowOps)
}.

Definition nonZero {A : Type} (l : list A) : option (list A) :=
  match l with [] => None | _ => Some l end.

(** [enc.Encode(li)] *)
Definition gobEncode (li : LogInfo) : gobLogInfo :=
  {| gOpsPatterns := nonZero (OpsPatterns li);
     gOutputFilename := nonZero (OutputFilename li);
     gSlowOps := nonZero (SlowOpsList li) |}.

(** [dec.Decode(li)] *)
Definition gobDecode (data : gobLogInfo) (li : LogInfo) : LogInfo :=
  {| OpsPatterns := default (OpsPatterns li) (gOpsPatterns data);
     OutputFilename := default (OutputFilename li) (gOutputFilename data);
     SlowOpsList := default (SlowOpsList li) (gSlowOps data);
     collscan := collscan li; filename := filename li; mongoInfo := mongoInfo li;
     silent := silent li; verbose := verbose li |}.

(** What [ioutil.ReadFile(li.filename)] or [os.Open(li.filename)]
    finds. *)
Inductive content : Type :=
| NoFile
| ArtifactFile (data : gobLogInfo)
| LogFile (file : logfile).

(** How [Analyze] ends: with an error, with a panic, or with the
    summary of [li] printed and, after a parse, the artifact written
    under [li.OutputFilename]. *)
Inductive analysis : Type :=
| Failed
| Crashed
| Analyzed (li : LogInfo) (written : option (gostring * gobLogInfo)).

(** [li.Analyze()] *)
Definition Analyze (li : LogInfo) (found : content) : analysis :=
  if HasSuffix (filename li) ".enc" then
    match found with
    | ArtifactFile data =>
        let li := gobDecode data li in
        Analyzed {| OpsPatterns := OpsPatterns li; OutputFilename := "";
                    SlowOpsList := SlowOpsList li;
                    collscan := collscan li; filename := filename li;
                    mongoInfo := mongoInfo li;
                    silent := silent li; verbose := verbose li |} None
    | _ => Failed
    end
  else
    match found with
    | LogFile file =>
        match Parse li file with
        | Some li => Analyzed li (Some (OutputFilename li, gobEncode li))
        | None => Crashed
        end
    | _ => Failed
    end.

End Parse.

End Mdb.

(** ** Notions used to state the properties *)

Module Spec.
Import GoStr Regexp Mdb.

(** [sub] occurs in [s] after [pre] and before [post]. *)
Definition occursAt (s sub pre post : gostring) : Prop := s = pre ++ sub ++ post.

(** [strings.Contains(s, sub)] as a proposition. *)
Definition contains (s sub : gostring) : Prop := exists pre post, occursAt s sub pre post.



(** The aggregation of the shapes of the lines that got through the
    extraction, in the order of the file. *)
Definition aggregate (shapes : list shape) : gmap gostring OpPerformanceDoc :=
  fold_left
    (fun m sh => updateOps m (shapeKey sh) (sOp sh) (sNs sh) (sFilter sh)
                   (sScan sh) (sIndex sh) (sMilli sh))
    shapes ∅.

(** The statistics of the occurrences [first :: rest] of one key. *)
Definition summary (first : shape) (rest : list shape) : OpPerformanceDoc :=
  let final := List.last rest first in
  {| Command := sOp first;
     Filter := sFilter first;
     Count := fold_left (fun c _ => int_add c 1) rest 1;
     TotalMilli := fold_left (fun t sh => int_add t (sMilli sh)) rest (sMilli first);
     MaxMilli := fold_left (fun m sh => Z.max m (sMilli sh)) rest (sMilli first);
     Namespace := sNs final;
     Scan := sScan final;
     Index := sIndex final |}.

Definition summaryOf (occurrences : list shape) : option OpPerformanceDoc :=
  match occurrences with
  | [] => None
  | first :: rest => Some (summary first rest)
  end.

Definition occurrencesOf (key : gostring) (shapes : list shape) : list shape :=
  filter (fun sh => shapeKey sh = key) shapes.

(** The shape of the line [str] when the line reaches the tracker and
    the aggregator (lines 495-518 of [Parse]). *)
Definition qualifying (Get : gostring -> gostring -> gostring) (collscanOnly : bool)
  (str : gostring) : option shape :=
  match FindStringSubmatch matched str with
  | Some result =>
      match extractShape Get collscanOnly str result with
      | Done sh => Some sh
      | _ => None
      end
  | None => None
  end.

Definition shapesOf (Get : gostring -> gostring -> gostring) (collscanOnly : bool)
  (lines : list gostring) : list shape :=
  omap (qualifying Get collscanOnly) lines.

(** Modelled from the spec: [gox.MongoLog.Get], of the package
    github.com/simagix/gox, which [getDocByField] and
    [reorderFilterFields] call and which is not under src/.  The
    specification (4.2) describes the extraction of a payload: "locate
    the start of a {-delimited payload, then scan forward maintaining a
    signed depth counter (+1 on {, -1 on }); the payload ends when
    depth returns to zero".  A key that does not occur in the text, or
    that no payload follows, gives the empty string. *)
Definition MongoLogGet (str key : gostring) : gostring :=
  let i := GoStr.Index str key in
  if i <? 0 then []
  else
    let rest := skipn (Z.to_nat (i + len key)) str in
    let j := GoStr.Index rest "{" in
    if j <? 0 then []
    else
      let payload := runes (skipn (Z.to_nat j) rest) in
      unrunes (firstn (Z.to_nat (payloadEnd payload false 0 0)) payload).

(** The slow-operation list after the tracker has considered the
    entries (duration and line) in order, starting from the empty
    list of [NewLogInfo]. *)
Definition tracked (sortSlice : forall A : Type, (A -> A -> bool) -> list A -> list A)
  (entries : list (Z * gostring)) : list SlowOps :=
  fold_left (fun ops e => trackSlowOp sortSlice ops (fst e) (snd e)) entries [].

(** The entries the tracker considers in a pass over [lines]: the
    duration and the text of every line that gets through the
    extraction. *)
Definition entriesOf (Get : gostring -> gostring -> gostring) (collscanOnly : bool)
  (lines : list gostring) : list (Z * gostring) :=
  omap (fun str => (fun sh => (sMilli sh, str)) <$> qualifying Get collscanOnly str) lines.

(** [ops] is in descending order of [Milli]. *)
Definition descending (ops : list SlowOps) : Prop :=
  forall i j x y, (i < j)%nat -> ops !! i = Some x -> ops !! j = Some y -> Milli y <= Milli x.

(** The entry the tracker appends for a duration and a line. *)
Definition entry (e : Z * gostring) : SlowOps := {| Milli := fst e; Log := snd e |}.

(** The entries of [ops] whose duration is [m], in the order of
    [ops]. *)
Definition sameMilli (m : Z) (ops : list SlowOps) : list SlowOps :=
  filter (fun x => Milli x = m) ops.

(** The entries of [ops] that have the same duration stand in the
    order in which the tracker considered them. *)
Definition tiesInInsertionOrder (entries : list (Z * gostring)) (ops : list SlowOps) : Prop :=
  forall m, sameMilli m ops `sublist_of` sameMilli m (map entry entries).

(** Six operations of 5 ms, then one of 7 ms. *)
Definition sevenEntries : list (Z * gostring) :=
  [ (5, "a" : gostring); (5, "b" : gostring); (5, "c" : gostring); (5, "d" : gostring);
    (5, "e" : gostring); (5, "f" : gostring); (7, "g" : gostring) ].

(** *** Sample log lines *)

Definition quoted (s : gostring) : gostring := dquote :: s ++ [dquote].

Definition stamp : gostring := "2019-01-01T00:00:00.000+0000 I COMMAND  [conn1] ".

(** A [count] of a whole collection: the command has no [query:]. *)
Definition countLine : gostring :=
  stamp ++ "command db.users command: count { count: " ++ quoted "users"
    ++ " } planSummary: COUNT keysExamined:0 docsExamined:0 numYields:0 reslen:44 150ms".

(** A [find] served by an index, whose query asks for the text
    COLLSCAN. *)
Definition findLine : gostring :=
  stamp ++ "command db.users command: find { find: " ++ quoted "users"
    ++ ", filter: { note: { $eq: " ++ quoted "COLLSCAN"
    ++ " } } } planSummary: IXSCAN { note: 1 } keysExamined:1 docsExamined:1 12ms".

(** What [findLine] contributes. *)
Definition findShape : shape :=
  {| sOp := "find"; sNs := "db.users"; sFilter := "{note: {$eq: 1}}";
     sScan := COLLSCAN; sIndex := "{ note: 1 }"; sMilli := 12 |}.

(** An operation of [ms] milliseconds of the shape of the scenarios
    of the specification. *)
Definition agedShape (ms : Z) : shape :=
  {| sOp := "find"; sNs := "db.users"; sFilter := "{age: 1, name: 1}";
     sScan := []; sIndex := []; sMilli := ms |}.

(** A [find] that scans the collection. *)
Definition scanLine : gostring :=
  stamp ++ "command db.orders command: find { find: " ++ quoted "orders"
    ++ ", filter: { a: { $gt: 5 } } } planSummary: COLLSCAN keysExamined:0 docsExamined:9 40ms".




(** A start-up line of the server. *)
Definition controlLine : gostring :=
  "2019-01-01T00:00:00.000+0000 I CONTROL  [initandlisten] db version v4.0.5".

(** A log file whose lines [ReadLine] returns in one piece each. *)
Definition sampleFile : list (list gostring) := [ [controlLine]; [findLine]; [scanLine] ].

(** The instances the samples run with: the insertion sort for
    [sort.Slice], the identity for [json.Indent], and the order of
    [map_to_list] for the iteration over the map. *)
Definition sampleSort : forall A : Type, (A -> A -> bool) -> list A -> list A :=
  fun A => @GoSort.sortSliceInsertion A.
Definition sampleIndent (s : gostring) : gostring := s.
Definition sampleRange (m : gmap gostring OpPerformanceDoc) : list OpPerformanceDoc :=
  map snd (map_to_list m).

(** The groups of [matched] on a line ([result] in [Parse]). *)
Definition groupsOf (str : gostring) : nat -> gostring :=
  match FindStringSubmatch matched str with
  | Some result => result
  | None => fun _ => []
  end.

End Spec.

(** ** Further notions used to state properties of the parser *)

Module Notions.
Import GoStr Regexp Mdb Spec.

(** What holds of every statistic that can reach the report of a pass
    run with the flag [collscanOnly]: the operation is one of the
    nine of [filters], the namespace is neither the oplog nor a
    [$cmd] pseudo-collection and, when only collection scans are
    asked for, the scan type is COLLSCAN. *)
Definition reportable (collscanOnly : bool) (doc : OpPerformanceDoc) : Prop :=
  hasFilter (Command doc) = true
  /\ Namespace doc <> "local.oplog.rs"
  /\ HasSuffix (Namespace doc) ".$cmd" = false
  /\ (collscanOnly = true -> Scan doc = COLLSCAN).

(** The same of a shape. *)
Definition reportableShape (collscanOnly : bool) (sh : shape) : Prop :=
  hasFilter (sOp sh) = true
  /\ sNs sh <> "local.oplog.rs"
  /\ HasSuffix (sNs sh) ".$cmd" = false
  /\ (collscanOnly = true -> sScan sh = COLLSCAN).

End Notions.

(** * Properties *)

(** ** Strings *)

Module GoStrFacts.
Import GoStr Spec.

Lemma eqb_eq s t : eqb s t = true <-> s = t.
Proof.
  revert t. induction s as [|a s IH]; intros [|b t]; cbn.
  - tauto.
  - split; discriminate.
  - split; discriminate.
  - rewrite andb_true_iff, Ascii.eqb_eq, IH. split.
    + now intros [-> ->].
    + now intros [= -> ->].
Qed.

Lemma eqb_refl s : eqb s s = true.
Proof. now apply eqb_eq. Qed.

Lemma eqb_neq s t : eqb s t = false <-> s <> t.
Proof.
  rewrite <- eqb_eq. destruct (eqb s t); split; congruence.
Qed.

Lemma HasPrefix_iff s p : HasPrefix s p = true <-> exists t, s = p ++ t.
Proof.
  revert s. induction p as [|b p IH]; intros s; cbn.
  - split; [intros _; now exists s | reflexivity].
  - destruct s as [|a s].
    + split; [easy | now intros [t H]].
    + rewrite andb_true_iff, Ascii.eqb_eq, IH. split.
      * intros [-> [t ->]]. now exists t.
      * intros [t [= -> ->]]. split; [reflexivity | now exists t].
Qed.

Lemma IndexFrom_spec sub s :
  forall i,
    (IndexFrom i s sub = -1 /\ ~ contains s sub)
    \/ (exists pre post,
           occursAt s sub pre post
           /\ IndexFrom i s sub = i + len pre
           /\ forall pre' post', occursAt s sub pre' post' -> (length pre <= length pre')%nat).
Proof.
  induction s as [|a s IH]; intros i; cbn [IndexFrom].
  - destruct (HasPrefix [] sub) eqn:E.
    + right. apply HasPrefix_iff in E as [t E]. exists [], t. unfold occursAt, len.
      cbn. repeat split; [exact E | lia | lia].
    + left. split; [reflexivity|]. intros (pre & post & H). unfold occursAt in H.
      destruct pre; [|discriminate]. cbn in H.
      assert (HasPrefix [] sub = true) by (apply HasPrefix_iff; eauto). congruence.
  - destruct (HasPrefix (a :: s) sub) eqn:E.
    + right. apply HasPrefix_iff in E as [t E]. exists [], t. unfold occursAt, len.
      cbn. repeat split; [exact E | lia | lia].
    + assert (N : forall post, a :: s <> sub ++ post).
      { intros post H. assert (HasPrefix (a :: s) sub = true) by (apply HasPrefix_iff; eauto).
        congruence. }
      destruct (IH (i + 1)) as [[H1 H2] | (pre & post & H1 & H2 & H3)].
      * left. split; [exact H1|]. intros (pre & post & H). unfold occursAt in H.
        destruct pre as [|b pre]; cbn in H.
        -- now apply (N post).
        -- injection H as -> H. apply H2. now exists pre, post.
      * right. exists (a :: pre), post. unfold occursAt in *. repeat split.
        -- cbn. now rewrite H1.
        -- rewrite H2. unfold len. cbn [length]. lia.
        -- intros pre' post' H. destruct pre' as [|b pre']; cbn in H.
           ++ now destruct (N post').
           ++ injection H as -> H. cbn. apply le_n_S. now apply (H3 pre' post').
Qed.

Lemma Index_nonneg_iff s sub : 0 <= Index s sub <-> contains s sub.
Proof.
  unfold Index. destruct (IndexFrom_spec sub s 0) as [[H1 H2] | (pre & post & H1 & H2 & _)].
  - rewrite H1. split; [lia | tauto].
  - rewrite H2. unfold len. split; [|lia]. intros _. now exists pre, post.
Qed.

Lemma Index_first s sub pre post :
  occursAt s sub pre post ->
  (forall pre' post', occursAt s sub pre' post' -> (length pre <= length pre')%nat) ->
  Index s sub = len pre.
Proof.
  intros H1 H2. unfold Index.
  destruct (IndexFrom_spec sub s 0) as [[_ N] | (p & q & E1 & E2 & E3)].
  - destruct N. now exists pre, post.
  - rewrite E2. unfold len. specialize (H2 _ _ E1). specialize (E3 _ _ H1). lia.
Qed.

End GoStrFacts.

(** ** Sorting *)

Module GoSortFacts.
Import GoSort.

Section Generic.
Context {A : Type}.
Variable less : A -> A -> bool.

Lemma sink_perm x before : sink less x before ≡ₚ x :: before.
Proof.
  induction before as [|y before IH]; cbn; [reflexivity|].
  destruct (less x y); [|reflexivity].
  rewrite IH. apply Permutation_swap.
Qed.

Lemma insertionSort_perm l : insertionSort less l ≡ₚ l.
Proof.
  unfold insertionSort.
  assert (G : forall before, fold_left (fun b x => sink less x b) l before ≡ₚ rev l ++ before).
  { induction l as [|x l IH]; intros before; cbn; [reflexivity|].
    rewrite IH, sink_perm, <- app_assoc. reflexivity. }
  rewrite <- Permutation_rev, G, app_nil_r. symmetry. apply Permutation_rev.
Qed.

Lemma insertionSort_snoc l x :
  insertionSort less (l ++ [x]) = rev (sink less x (rev (insertionSort less l))).
Proof. unfold insertionSort. now rewrite fold_left_app, rev_involutive. Qed.

(** No element of [l] is less than [x]. *)
Definition dominates (x : A) (l : list A) : bool :=
  forallb (fun y => negb (less y x)) l.

Lemma ordered_app l1 l2 :
  ordered less (l1 ++ l2) = true <->
  ordered less l1 = true /\ ordered less l2 = true
  /\ forall x y, In x l1 -> In y l2 -> less y x = false.
Proof.
  induction l1 as [|a l1 IH]; cbn.
  - split; [intros H; repeat split; [exact H | intros ? ? []] | tauto].
  - rewrite !andb_true_iff, forallb_app, andb_true_iff, IH, !forallb_forall.
    split.
    + intros [[H1 H2] (H3 & H4 & H5)]. repeat split; auto.
      intros x y [E|Hx] Hy; [subst x|now apply H5].
      apply H2 in Hy. now destruct (less y a).
    + intros ([H1 H2] & H3 & H4). repeat split; auto.
      intros y Hy. rewrite (H4 a y); auto.
Qed.

Lemma ordered_lookup l i j x y :
  ordered less l = true -> (i < j)%nat -> l !! i = Some x -> l !! j = Some y ->
  less y x = false.
Proof.
  revert i j. induction l as [|a l IH]; intros i j H Hij Hi Hj; [discriminate|].
  cbn in H. apply andb_true_iff in H as [H1 H2].
  destruct j as [|j]; [lia|]. cbn in Hj.
  destruct i as [|i].
  - cbn in Hi. injection Hi as E. subst a. rewrite forallb_forall in H1.
    apply list_elem_of_lookup_2, list_elem_of_In in Hj. apply H1 in Hj.
    now destruct (less y x).
  - cbn in Hi. apply (IH i j); auto. lia.
Qed.

Hypothesis less_asym : forall x y, less x y = true -> less y x = false.
Hypothesis less_negtrans :
  forall x y z, less x y = false -> less y z = false -> less x z = false.

(** [before] holds, nearest first, elements in order. *)
Definition orderedBefore (before : list A) : Prop := ordered less (rev before) = true.

Lemma orderedBefore_cons y before :
  orderedBefore (y :: before) <->
  orderedBefore before /\ forall z, In z before -> less y z = false.
Proof.
  unfold orderedBefore. cbn [rev]. rewrite ordered_app. cbn. split.
  - intros (H1 & _ & H3). split; [exact H1|]. intros z Hz. apply H3; [|now left].
    now apply in_rev in Hz.
  - intros [H1 H2]. repeat split; auto. intros x z Hx [<-|[]]. apply H2.
    now apply in_rev.
Qed.

Lemma sink_ordered x before : orderedBefore before -> orderedBefore (sink less x before).
Proof.
  induction before as [|y before IH]; intros H; cbn.
  - reflexivity.
  - destruct (less x y) eqn:E.
    + apply orderedBefore_cons in H as [H1 H2]. apply orderedBefore_cons. split; [auto|].
      intros z Hz. apply (Permutation_in _ (sink_perm x before)) in Hz as [<-|Hz]; auto.
    + apply orderedBefore_cons. split; [exact H|].
      intros z [<-|Hz]; [exact E|].
      apply orderedBefore_cons in H as [_ H2]. eauto.
Qed.

Lemma insertionSort_ordered l : ordered less (insertionSort less l) = true.
Proof.
  unfold insertionSort.
  assert (G : forall before, orderedBefore before ->
              orderedBefore (fold_left (fun b x => sink less x b) l before)).
  { induction l as [|x l IH]; intros before H; cbn; [exact H|].
    apply IH, sink_ordered, H. }
  apply (G []). reflexivity.
Qed.

(** On a slice that is in order already, [insertionSort] moves
    nothing. *)
Lemma sink_fixed x before :
  (forall z, In z before -> less x z = false) -> sink less x before = x :: before.
Proof. destruct before as [|y before]; cbn; [reflexivity|]. intros H. now rewrite H by now left. Qed.

Lemma insertionSort_fixed l : ordered less l = true -> insertionSort less l = l.
Proof.
  induction l as [|x l IH] using rev_ind; intros H; [reflexivity|].
  apply ordered_app in H as (H1 & _ & H3).
  rewrite insertionSort_snoc, IH by exact H1.
  rewrite sink_fixed.
  - cbn. now rewrite rev_involutive.
  - intros z Hz. apply H3; [now apply in_rev | now left].
Qed.
End Generic.
End GoSortFacts.

Module MdbFacts.
Import GoStr Regexp Mdb Spec.

(** ** Go integers *)

Lemma int_add_exact a b : minInt <= a + b <= maxInt -> int_add a b = a + b.
Proof.
  unfold int_add, wrap, minInt, maxInt. intros H.
  rewrite Z.mod_small; lia.
Qed.

(** ** The Shape Aggregator *)

Lemma summary_snoc first rest sh :
  summary first (rest ++ [sh]) =
    let old := summary first rest in
    {| Command := Command old; Namespace := sNs sh; Filter := Filter old;
       MaxMilli := (if sMilli sh >? MaxMilli old then sMilli sh else MaxMilli old);
       TotalMilli := int_add (TotalMilli old) (sMilli sh);
       Count := int_add (Count old) 1;
       Scan := sScan sh; Index := sIndex sh |}.
Proof.
  unfold summary. rewrite !fold_left_app, List.last_last. cbn.
  f_equal. destruct (Z.gtb_spec (sMilli sh)
    (fold_left (fun m sh0 => Z.max m (sMilli sh0)) rest (sMilli first))); lia.
Qed.

Lemma aggregate_snoc shapes sh :
  aggregate (shapes ++ [sh]) =
    updateOps (aggregate shapes) (shapeKey sh) (sOp sh) (sNs sh) (sFilter sh)
      (sScan sh) (sIndex sh) (sMilli sh).
Proof. unfold aggregate. now rewrite fold_left_app. Qed.

Lemma updateOps_lookup m key op ns flt scan index milli :
  updateOps m key op ns flt scan index milli !! key =
    Some match m !! key with
         | Some old =>
             {| Command := Command old; Namespace := ns; Filter := Filter old;
                MaxMilli := (if milli >? MaxMilli old then milli else MaxMilli old);
                TotalMilli := int_add (TotalMilli old) milli;
                Count := int_add (Count old) 1;
                Scan := scan; Index := index |}
         | None =>
             {| Command := op; Namespace := ns; Filter := flt;
                TotalMilli := milli; MaxMilli := milli; Count := 1;
                Scan := scan; Index := index |}
         end.
Proof. unfold updateOps. destruct (m !! key); now rewrite lookup_insert_eq. Qed.

Lemma updateOps_lookup_ne m key op ns flt scan index milli k :
  key <> k -> updateOps m key op ns flt scan index milli !! k = m !! k.
Proof. intros H. unfold updateOps. destruct (m !! key); now rewrite lookup_insert_ne. Qed.

Lemma aggregate_lookup shapes key :
  aggregate shapes !! key = summaryOf (occurrencesOf key shapes).
Proof.
  induction shapes as [|sh shapes IH] using rev_ind.
  - reflexivity.
  - rewrite aggregate_snoc. unfold occurrencesOf in *.
    rewrite filter_app, filter_cons, filter_nil.
    destruct (decide (shapeKey sh = key)) as [E|E].
    + rewrite <- E in *. rewrite updateOps_lookup, IH.
      destruct (filter _ shapes) as [|first rest]; cbn.
      * reflexivity.
      * now rewrite summary_snoc.
    + rewrite app_nil_r.
      rewrite updateOps_lookup_ne by exact E. exact IH.
Qed.

(** C4.  For every sequence of qualifying lines, the entry of the
    aggregator for a key is created at the first occurrence of the
    key with count 1 and total and maximum equal to the duration of
    that line; every later occurrence of the key adds 1 to the count,
    adds its duration to the total (in Go's [int] arithmetic), raises
    the maximum only when its duration is greater, and overwrites the
    namespace and the index with its own values, while the command
    and the filter stay those of the first occurrence.  So after any
    sequence of lines the entry of a key is the summary of the
    occurrences of that key, and a key that did not occur has no
    entry. *)
Theorem aggregator_folds_occurrences (shapes : list shape) (sh : shape) :
  let m := aggregate shapes in
  let m' := aggregate (shapes ++ [sh]) in
  m' !! shapeKey sh =
    Some match m !! shapeKey sh with
         | None =>
             {| Command := sOp sh; Count := 1; Filter := sFilter sh;
                MaxMilli := sMilli sh; Namespace := sNs sh; Scan := sScan sh;
                TotalMilli := sMilli sh; Index := sIndex sh |}
         | Some old =>
             {| Command := Command old; Count := int_add (Count old) 1;
                Filter := Filter old;
                MaxMilli := (if sMilli sh >? MaxMilli old then sMilli sh else MaxMilli old);
                Namespace := sNs sh; Scan := sScan sh;
                TotalMilli := int_add (TotalMilli old) (sMilli sh);
                Index := sIndex sh |}
         end
  /\ (forall key, key <> shapeKey sh -> m' !! key = m !! key)
  /\ (forall key, m' !! key = summaryOf (occurrencesOf key (shapes ++ [sh]))).
Proof.
  cbn zeta. rewrite aggregate_snoc. split; [|split].
  - rewrite updateOps_lookup. now destruct (aggregate shapes !! shapeKey sh).
  - intros key H. now rewrite updateOps_lookup_ne.
  - intros key. rewrite <- aggregate_snoc. apply aggregate_lookup.
Qed.

Lemma bind_Done {A B} (f : A -> outcome B) (o : outcome A) b :
  o ≫= f = Done b -> exists a, o = Done a /\ f a = Done b.
Proof. destruct o; cbn; intros H; try discriminate. eauto. Qed.

Lemma extractShape_scan Get collscanOnly str result sh :
  extractShape Get collscanOnly str result = Done sh -> sScan sh = scanOf str.
Proof.
  unfold extractShape. intros H.
  destruct (collscanOnly && _); [discriminate|].
  destruct (eqb _ _ || _); [discriminate|].
  apply bind_Done in H as (flt & _ & H).
  apply bind_Done in H as ([op flt'] & _ & H).
  destruct (negb _); [discriminate|].
  apply bind_Done in H as ([flt'' agg] & _ & H).
  apply bind_Done in H as (canon & _ & H).
  now injection H as <-.
Qed.
Lemma DecodeRune_width (a : ascii) (s : gostring) :
  (1 <= length (rbytes (DecodeRune (a :: s))))%nat.
Proof.
  unfold DecodeRune. repeat case_match; cbn; lia.
Qed.

Lemma runesFrom_length fuel s : (length (runesFrom fuel s) <= length s)%nat.
Proof.
  revert s. induction fuel as [|fuel IH]; intros s; cbn; [lia|].
  destruct s as [|a s]; [cbn; lia|].
  pose proof (DecodeRune_width a s) as W.
  cbn [length]. specialize (IH (skipn (length (rbytes (DecodeRune (a :: s)))) (a :: s))).
  rewrite length_skipn in IH. cbn [length] in IH. lia.
Qed.

Lemma runes_length s : (length (runes s) <= length s)%nat.
Proof. apply runesFrom_length. Qed.

Lemma payloadEnd_bounds rs :
  forall isFound bpos epos,
    epos <= payloadEnd rs isFound bpos epos <= epos + Z.of_nat (length rs).
Proof.
  induction rs as [|r rs IH]; intros isFound bpos epos; cbn [payloadEnd length].
  - lia.
  - repeat case_match; try lia;
      match goal with
      | |- context [payloadEnd rs ?f ?b ?e] => specialize (IH f b e); lia
      end.
Qed.

Lemma payload_slice body :
  sliceTo body (payloadEnd (runes body) false 0 0)
  = Some (firstn (Z.to_nat (payloadEnd (runes body) false 0 0)) body).
Proof.
  pose proof (payloadEnd_bounds (runes body) false 0 0) as B.
  pose proof (runes_length body) as L.
  unfold sliceTo, slice, len.
  destruct (0 <=? 0) eqn:E0; [|lia].
  destruct (0 <=? payloadEnd (runes body) false 0 0) eqn:E1; [|lia].
  destruct (payloadEnd (runes body) false 0 0 <=? Z.of_nat (length body)) eqn:E2; [|lia].
  cbn. now rewrite Z.sub_0_r.
Qed.
Lemma canonicalize_empty Get : canonicalize Get [] = None.
Proof. reflexivity. Qed.

Lemma extractShape_count Get collscanOnly str result verb flt :
  (collscanOnly = true -> scanOf str = COLLSCAN) ->
  eqb (result 3%nat) "local.oplog.rs" = false ->
  HasSuffix (result 3%nat) ".$cmd" = false ->
  unwrapCommand (result 2%nat)
    (firstn (Z.to_nat (payloadEnd (runes (result 4%nat)) false 0 0)) (result 4%nat))
    = Done (verb, flt) ->
  verb = "count" ->
  extractShape Get collscanOnly str result
  = (filter ← must (canonicalize Get (if nonEmpty (Get flt "query: ") then Get flt "query: " else []));
     Done {| sOp := verb; sNs := result 3%nat; sFilter := filter; sScan := scanOf str;
             sIndex := indexOf Get (scanOf str) str; sMilli := Atoi (result 5%nat) |}).
Proof.
  intros Hc Hns1 Hns2 Hu ->. unfold extractShape.
  replace (collscanOnly && negb (eqb (scanOf str) COLLSCAN)) with false.
  2:{ destruct collscanOnly; [|reflexivity]. rewrite Hc by reflexivity. reflexivity. }
  rewrite Hns1, Hns2. cbn [orb].
  rewrite payload_slice. cbn [must mbind outcome_bind bindOutcome].
  rewrite Hu. cbn [must mbind outcome_bind bindOutcome].
  change (hasFilter "count") with true. cbn [negb].
  unfold opFilter, getDocByField.
  change (eqb "count" "delete") with false. change (eqb "count" "find") with false.
  change (eqb "count" "count") with true.
  cbn [andb orb mbind outcome_bind bindOutcome].
  destruct (canonicalize Get _); cbn; [|reflexivity].
  now rewrite app_nil_r.
Qed.
Lemma shapeKey_scan a b :
  shapeKey a = shapeKey b ->
  (sScan a = COLLSCAN \/ sScan a = []) ->
  (sScan b = COLLSCAN \/ sScan b = []) ->
  sScan a = sScan b.
Proof.
  unfold shapeKey. intros K [Ha|Ha] [Hb|Hb]; rewrite Ha, Hb in *; try reflexivity; exfalso.
  - apply (f_equal (fun l => List.last l "x"%char)) in K. revert K.
    rewrite !app_assoc, app_nil_r. unfold COLLSCAN. cbn [list_ascii_of_string].
    change ["C"; "O"; "L"; "L"; "S"; "C"; "A"; "N"]%char
      with (["C"; "O"; "L"; "L"; "S"; "C"; "A"]%char ++ ["N"%char]).
    rewrite !app_assoc, !List.last_last. discriminate.
  - apply (f_equal (fun l => List.last l "x"%char)) in K. revert K.
    rewrite !app_assoc, app_nil_r. unfold COLLSCAN. cbn [list_ascii_of_string].
    change ["C"; "O"; "L"; "L"; "S"; "C"; "A"; "N"]%char
      with (["C"; "O"; "L"; "L"; "S"; "C"; "A"]%char ++ ["N"%char]).
    rewrite !app_assoc, !List.last_last. discriminate.
Qed.

Lemma scanOf_cases str :
  (contains str "COLLSCAN" /\ scanOf str = COLLSCAN)
  \/ (~ contains str "COLLSCAN" /\ scanOf str = []).
Proof.
  unfold scanOf. pose proof (GoStrFacts.Index_nonneg_iff str "COLLSCAN") as H.
  destruct (0 <=? GoStr.Index str "COLLSCAN") eqn:E.
  - left. split; [apply H; lia | reflexivity].
  - right. split; [|reflexivity]. intros C. apply H in C. lia.
Qed.

Lemma qualifying_scan Get collscanOnly str sh :
  qualifying Get collscanOnly str = Some sh -> sScan sh = scanOf str.
Proof.
  unfold qualifying. destruct (FindStringSubmatch matched str) as [result|]; [|discriminate].
  destruct (extractShape Get collscanOnly str result) eqn:E; try discriminate.
  intros [= <-]. now apply extractShape_scan in E.
Qed.

Lemma shapesOf_scan Get collscanOnly lines sh :
  sh ∈ shapesOf Get collscanOnly lines -> sScan sh = COLLSCAN \/ sScan sh = [].
Proof.
  unfold shapesOf. rewrite list_elem_of_omap. intros (str & _ & Q).
  apply qualifying_scan in Q. rewrite Q.
  destruct (scanOf_cases str) as [[_ ->]|[_ ->]]; auto.
Qed.

Lemma last_elem_of {A} (l : list A) (d : A) : List.last l d ∈ d :: l.
Proof.
  revert d. induction l as [|x l IH]; intros d.
  - cbn. apply list_elem_of_here.
  - change (List.last (x :: l) d) with (match l with [] => x | _ => List.last l d end).
    destruct l as [|y l].
    + apply list_elem_of_further, list_elem_of_here.
    + specialize (IH d). apply elem_of_cons in IH as [IH|IH].
      * rewrite IH at 1. apply list_elem_of_here.
      * now do 2 apply list_elem_of_further.
Qed.

(** C10.  A line that reaches the aggregator is classified as a
    collection scan exactly when the raw line contains the text
    COLLSCAN somewhere: the scan component of its key
    [op + "." + filter + "." + scan] is COLLSCAN in that case and
    empty otherwise, and the record rendered for its shape has
    [isCollectionScan] set exactly in that case.  Where in the line
    the text stands plays no part. *)
Theorem collscan_is_a_substring_test
  (Get : gostring -> gostring -> gostring) (collscanOnly : bool)
  (lines : list gostring) (str : gostring) (sh : shape) :
  str ∈ lines ->
  qualifying Get collscanOnly str = Some sh ->
  (sScan sh = COLLSCAN <-> contains str "COLLSCAN")
  /\ (sScan sh = [] <-> ~ contains str "COLLSCAN")
  /\ shapeKey sh = sOp sh ++ "." ++ sFilter sh ++ "." ++ sScan sh
  /\ exists doc,
      aggregate (shapesOf Get collscanOnly lines) !! shapeKey sh = Some doc
      /\ Scan doc = sScan sh
      /\ (IsCollectionScan (ConverOpPerformanceDocumentToLogInfoLineAnalytics doc) = true
          <-> contains str "COLLSCAN").
Proof.
  intros Hin Q.
  assert (S1 : sScan sh = COLLSCAN <-> contains str "COLLSCAN").
  { rewrite (qualifying_scan _ _ _ _ Q).
    destruct (scanOf_cases str) as [[C ->]|[C ->]]; split; try tauto; discriminate. }
  assert (S2 : sScan sh = [] <-> ~ contains str "COLLSCAN").
  { rewrite (qualifying_scan _ _ _ _ Q).
    destruct (scanOf_cases str) as [[C ->]|[C ->]]; split; try tauto; discriminate. }
  repeat split; try tauto.
  assert (M : sh ∈ shapesOf Get collscanOnly lines).
  { unfold shapesOf. apply list_elem_of_omap. eauto. }
  rewrite aggregate_lookup.
  assert (O : sh ∈ occurrencesOf (shapeKey sh) (shapesOf Get collscanOnly lines)).
  { unfold occurrencesOf. apply list_elem_of_filter. auto. }
  destruct (occurrencesOf (shapeKey sh) (shapesOf Get collscanOnly lines))
    as [|first rest] eqn:E; [inversion O|].
  exists (summary first rest). split; [reflexivity|].
  assert (L : Scan (summary first rest) = sScan sh).
  { cbn. pose proof (last_elem_of rest first) as IN. rewrite <- E in IN.
    unfold occurrencesOf in IN. apply list_elem_of_filter in IN as [K IN].
    apply shapeKey_scan; [exact K | now apply shapesOf_scan in IN | now apply shapesOf_scan in M]. }
  split; [exact L|].
  cbn [IsCollectionScan ConverOpPerformanceDocumentToLogInfoLineAnalytics].
  rewrite GoStrFacts.eqb_eq, L. exact S1.
Qed.

Lemma distinct_is_skipped Get collscanOnly str result :
  result 2%nat = "distinct" ->
  extractShape Get collscanOnly str result = Continue.
Proof.
  intros H. unfold extractShape.
  destruct (collscanOnly && _); [reflexivity|].
  destruct (eqb _ _ || _); [reflexivity|].
  rewrite payload_slice, H. reflexivity.
Qed.

(** C7 (what the code does instead).  A [count] line that is not
    filtered out before the extraction, and whose command holds no
    [query:] document, leaves the extraction with the empty string as
    its filter; [reorderFilterFields] then slices [str[1:len(str)-1]]
    of the empty string and panics, so the pass over the file does not
    reach the next line. *)
Theorem count_without_query_panics
  (Get : gostring -> gostring -> gostring)
  (sortSlice : forall A : Type, (A -> A -> bool) -> list A -> list A)
  (collscanOnly : bool) (st : pstate) (str : gostring) (result : nat -> gostring)
  (flt : gostring) (rest : list gostring) :
  FindStringSubmatch matched str = Some result ->
  (collscanOnly = true -> scanOf str = COLLSCAN) ->
  eqb (result 3%nat) "local.oplog.rs" = false ->
  HasSuffix (result 3%nat) ".$cmd" = false ->
  unwrapCommand (result 2%nat)
    (firstn (Z.to_nat (payloadEnd (runes (result 4%nat)) false 0 0)) (result 4%nat))
    = Done ("count" : gostring, flt) ->
  Get flt "query: " = [] ->
  extractShape Get collscanOnly str result = Panic
  /\ parseLines Get sortSlice collscanOnly st (str :: rest) = None.
Proof.
  intros Hm Hc Hn1 Hn2 Hu Hq.
  assert (E : extractShape Get collscanOnly str result = Panic).
  { rewrite (extractShape_count Get collscanOnly str result "count" flt Hc Hn1 Hn2 Hu eq_refl).
    rewrite Hq. reflexivity. }
  split; [exact E|].
  cbn [parseLines]. unfold parseLine. rewrite Hm, E. reflexivity.
Qed.

Lemma count_without_query_panics_witness :
  extractShape MongoLogGet false countLine (groupsOf countLine) = Panic
  /\ parseLines MongoLogGet (fun A => @GoSort.sortSliceInsertion A) false
       {| slowOps := []; opsMap := ∅ |} [countLine; findLine] = None.
Proof.
  apply (count_without_query_panics MongoLogGet _ false _ countLine (groupsOf countLine)
           ("{ count: " ++ quoted "users" ++ " }") [findLine]).
  - unfold groupsOf. destruct (FindStringSubmatch matched countLine) eqn:E;
      [reflexivity | vm_compute in E; discriminate].
  - discriminate.
  - vm_compute; reflexivity.
  - vm_compute; reflexivity.
  - vm_compute; reflexivity.
  - vm_compute; reflexivity.
Defined.

Lemma collscan_is_a_substring_test_witness :
  (sScan findShape = COLLSCAN <-> contains findLine "COLLSCAN")
  /\ (sScan findShape = [] <-> ~ contains findLine "COLLSCAN")
  /\ shapeKey findShape = sOp findShape ++ "." ++ sFilter findShape ++ "." ++ sScan findShape
  /\ exists doc,
      aggregate (shapesOf MongoLogGet false [findLine]) !! shapeKey findShape = Some doc
      /\ Scan doc = sScan findShape
      /\ (IsCollectionScan (ConverOpPerformanceDocumentToLogInfoLineAnalytics doc) = true
          <-> contains findLine "COLLSCAN").
Proof.
  apply (collscan_is_a_substring_test MongoLogGet false [findLine] findLine findShape).
  - apply list_elem_of_here.
  - vm_compute; reflexivity.
Defined.
(** ** The pass over the file, as two folds *)

Lemma parseLine_qualifying Get sortSlice collscanOnly st str st' :
  parseLine Get sortSlice collscanOnly st str = Some st' ->
  st' = match qualifying Get collscanOnly str with
        | Some sh => record sortSlice st str sh
        | None => st
        end.
Proof.
  unfold parseLine, qualifying.
  destruct (FindStringSubmatch matched str) as [result|]; [|now intros [= <-]].
  destruct (extractShape Get collscanOnly str result); now intros [= <-].
Qed.

Lemma parseLines_folds Get sortSlice collscanOnly lines :
  forall st st',
    parseLines Get sortSlice collscanOnly st lines = Some st' ->
    slowOps st'
    = fold_left (fun ops e => trackSlowOp sortSlice ops (fst e) (snd e))
        (entriesOf Get collscanOnly lines) (slowOps st)
    /\ opsMap st'
       = fold_left (fun m sh => updateOps m (shapeKey sh) (sOp sh) (sNs sh) (sFilter sh)
                                  (sScan sh) (sIndex sh) (sMilli sh))
           (shapesOf Get collscanOnly lines) (opsMap st).
Proof.
  induction lines as [|str lines IH]; intros st st' H; cbn in H.
  - injection H as <-. split; reflexivity.
  - destruct (parseLine Get sortSlice collscanOnly st str) as [st1|] eqn:E; [|discriminate].
    cbn in H. apply IH in H as [H1 H2]. apply parseLine_qualifying in E.
    unfold entriesOf, shapesOf in *. cbn [omap list_omap].
    destruct (qualifying Get collscanOnly str) as [sh|]; cbn [fmap option_fmap option_map];
      subst st1; cbn in *; auto.
Qed.

Lemma parseLines_tracked_aggregate Get sortSlice collscanOnly lines st :
  parseLines Get sortSlice collscanOnly {| slowOps := []; opsMap := ∅ |} lines = Some st ->
  slowOps st = tracked sortSlice (entriesOf Get collscanOnly lines)
  /\ opsMap st = aggregate (shapesOf Get collscanOnly lines).
Proof. apply parseLines_folds. Qed.
(** ** The Slow-Op Tracker *)

Lemma slower_asym x y : slower x y = true -> slower y x = false.
Proof. unfold slower. lia. Qed.

Lemma slower_negtrans x y z : slower x y = false -> slower y z = false -> slower x z = false.
Proof. unfold slower. lia. Qed.

Lemma ordered_descending ops : GoSort.ordered slower ops = true -> descending ops.
Proof.
  intros H i j x y Hij Hi Hj.
  pose proof (GoSortFacts.ordered_lookup slower ops i j x y H Hij Hi Hj) as L.
  unfold slower in L. lia.
Qed.

Lemma descending_firstn n ops : descending ops -> descending (firstn n ops).
Proof.
  intros H i j x y Hij Hi Hj.
  apply lookup_take_Some in Hi as [Hi _]. apply lookup_take_Some in Hj as [Hj _]. eauto.
Qed.

Section Tracker.
Variable sortSlice : forall A : Type, (A -> A -> bool) -> list A -> list A.

(** What the documentation of [sort.Slice] promises, for the [less]
    of the tracker. *)
Hypothesis sortSlice_perm : forall l, sortSlice SlowOps slower l ≡ₚ l.
Hypothesis sortSlice_ordered : forall l, GoSort.ordered slower (sortSlice SlowOps slower l) = true.

Lemma trackSlowOp_invariant ops milli str :
  (length ops <= 10)%nat -> descending ops ->
  (length (trackSlowOp sortSlice ops milli str) <= 10)%nat
  /\ descending (trackSlowOp sortSlice ops milli str).
Proof.
  intros L D. unfold trackSlowOp.
  destruct ((Z.of_nat (length ops) <? 10) || _); [|auto].
  set (sorted := sortSlice SlowOps slower (ops ++ [ {| Milli := milli; Log := str |} ])).
  assert (DS : descending sorted) by apply ordered_descending, sortSlice_ordered.
  destruct (Z.of_nat (length sorted) >? 10) eqn:E.
  - split; [rewrite length_take; lia | now apply descending_firstn].
  - split; [lia | exact DS].
Qed.

Lemma tracked_snoc entries e :
  tracked sortSlice (entries ++ [e])
  = trackSlowOp sortSlice (tracked sortSlice entries) (fst e) (snd e).
Proof. unfold tracked. now rewrite fold_left_app. Qed.

Lemma tracked_invariant entries :
  (length (tracked sortSlice entries) <= 10)%nat /\ descending (tracked sortSlice entries).
Proof.
  induction entries as [|e entries IH] using rev_ind.
  - split; [cbn; lia | intros i j x y _ Hi; destruct i; discriminate].
  - rewrite tracked_snoc. destruct IH. now apply trackSlowOp_invariant.
Qed.
End Tracker.
Lemma ltb_true a b : a < b -> (a <? b) = true.
Proof. apply Z.ltb_lt. Qed.
Lemma ltb_false a b : b <= a -> (a <? b) = false.
Proof. apply Z.ltb_ge. Qed.
Lemma gtb_true a b : b < a -> (a >? b) = true.
Proof. rewrite Z.gtb_ltb. apply Z.ltb_lt. Qed.
Lemma gtb_false a b : a <= b -> (a >? b) = false.
Proof. rewrite Z.gtb_ltb. apply Z.ltb_ge. Qed.

Section Tracker2.
Variable sortSlice : forall A : Type, (A -> A -> bool) -> list A -> list A.
Hypothesis sortSlice_perm : forall l, sortSlice SlowOps slower l ≡ₚ l.
Hypothesis sortSlice_ordered : forall l, GoSort.ordered slower (sortSlice SlowOps slower l) = true.

Lemma track_under_capacity ops milli str :
  (length ops < 10)%nat ->
  trackSlowOp sortSlice ops milli str ≡ₚ ops ++ [ {| Milli := milli; Log := str |} ].
Proof.
  intros L. unfold trackSlowOp.
  rewrite ltb_true by lia. cbn [orb].
  set (sorted := sortSlice SlowOps slower _).
  assert (P : sorted ≡ₚ ops ++ [ {| Milli := milli; Log := str |} ]) by apply sortSlice_perm.
  assert (N : length sorted = S (length ops)).
  { rewrite (Permutation_length P), length_app. cbn. lia. }
  rewrite gtb_false by lia. exact P.
Qed.

Lemma least_of_full ops :
  length ops = 10%nat -> descending ops ->
  exists least, ops !! 9%nat = Some least /\ forall x, x ∈ ops -> Milli least <= Milli x.
Proof.
  intros L D. destruct (lookup_lt_is_Some_2 ops 9) as [least H]; [lia|].
  exists least. split; [exact H|]. intros x Hx.
  apply list_elem_of_lookup in Hx as [i Hi].
  assert (i < 10)%nat by (apply lookup_lt_Some in Hi; lia).
  destruct (decide (i = 9%nat)) as [->|Ne].
  - rewrite H in Hi. injection Hi as <-. lia.
  - apply (D i 9%nat x least); [lia | exact Hi | exact H].
Qed.

Lemma track_at_capacity ops milli str least :
  length ops = 10%nat -> descending ops -> ops !! 9%nat = Some least ->
  (forall x, x ∈ ops -> Milli least <= Milli x) ->
  (milli <= Milli least -> trackSlowOp sortSlice ops milli str = ops)
  /\ (Milli least < milli ->
      exists evicted,
        trackSlowOp sortSlice ops milli str ++ [evicted]
          ≡ₚ ops ++ [ {| Milli := milli; Log := str |} ]
        /\ evicted ∈ ops /\ Milli evicted = Milli least).
Proof.
  intros L D H9 Hmin. unfold trackSlowOp. rewrite H9, L.
  rewrite ltb_false by lia. cbn [orb].
  split; intros C.
  - rewrite gtb_false by lia. reflexivity.
  - rewrite gtb_true by lia.
    set (e := {| Milli := milli; Log := str |}).
    set (sorted := sortSlice SlowOps slower (ops ++ [e])).
    assert (P : sorted ≡ₚ ops ++ [e]) by apply sortSlice_perm.
    assert (DS : descending sorted) by apply ordered_descending, sortSlice_ordered.
    assert (N : length sorted = 11%nat).
    { rewrite (Permutation_length P), length_app, L. reflexivity. }
    rewrite gtb_true by lia.
    destruct (lookup_lt_is_Some_2 sorted 10) as [evicted H10]; [lia|].
    assert (S : sorted = firstn 10 sorted ++ [evicted]).
    { rewrite <- (take_drop 10 sorted) at 1. f_equal.
      apply list_eq. intros [|k]; rewrite lookup_drop; cbn.
      - exact H10.
      - apply lookup_ge_None. lia. }
    assert (Low : forall x, x ∈ sorted -> Milli evicted <= Milli x).
    { intros x Hx. apply list_elem_of_lookup in Hx as [i Hi].
      assert (i < 11)%nat by (apply lookup_lt_Some in Hi; lia).
      destruct (decide (i = 10%nat)) as [->|Ne].
      - rewrite H10 in Hi. injection Hi as <-. lia.
      - apply (DS i 10%nat x evicted); [lia | exact Hi | exact H10]. }
    assert (Hl : least ∈ sorted).
    { rewrite P. apply elem_of_app. left. eapply list_elem_of_lookup_2, H9. }
    assert (He : evicted ∈ ops ++ [e]).
    { rewrite <- P. eapply list_elem_of_lookup_2, H10. }
    exists evicted. split; [now rewrite <- S|].
    apply elem_of_app in He as [He|He].
    + split; [exact He|]. specialize (Low _ Hl). specialize (Hmin _ He). lia.
    + apply list_elem_of_singleton in He. subst evicted.
      specialize (Low _ Hl). cbn in Low. lia.
Qed.

(** C3.  At every point of a pass the slow-operation list holds at
    most 10 entries and is in descending order of [Milli].  Under
    capacity the entry considered is inserted.  At capacity the
    tenth entry holds the least duration of the list; an entry whose
    duration is not greater is left out and the list stays as it
    is, and an entry whose duration is greater is inserted while an
    entry of that least duration is evicted. *)
Theorem slow_ops_bounded_and_sorted (entries : list (Z * gostring))
  (milli : Z) (str : gostring) :
  let ops := tracked sortSlice entries in
  let ops' := trackSlowOp sortSlice ops milli str in
  let e := {| Milli := milli; Log := str |} in
  ((length ops <= 10)%nat /\ descending ops)
  /\ ((length ops < 10)%nat -> ops' ≡ₚ ops ++ [e])
  /\ (length ops = 10%nat ->
      exists least,
        ops !! 9%nat = Some least
        /\ (forall x, x ∈ ops -> Milli least <= Milli x)
        /\ (milli <= Milli least -> ops' = ops)
        /\ (Milli least < milli ->
            exists evicted,
              ops' ++ [evicted] ≡ₚ ops ++ [e]
              /\ evicted ∈ ops /\ Milli evicted = Milli least)).
Proof.
  cbn zeta.
  destruct (tracked_invariant sortSlice sortSlice_ordered entries) as [L D].
  split; [auto|]. split.
  - apply track_under_capacity.
  - intros L10. destruct (least_of_full _ L10 D) as (least & H9 & Hmin).
    exists least. split; [exact H9|]. split; [exact Hmin|].
    now apply track_at_capacity.
Qed.
End Tracker2.
Lemma slow_ops_bounded_and_sorted_witness :
  let sortSlice := fun A : Type => @GoSort.sortSliceInsertion A in
  let ops := tracked sortSlice sevenEntries in
  let ops' := trackSlowOp sortSlice ops 6 "h" in
  let e := {| Milli := 6; Log := "h" |} in
  ((length ops <= 10)%nat /\ descending ops)
  /\ ((length ops < 10)%nat -> ops' ≡ₚ ops ++ [e])
  /\ (length ops = 10%nat ->
      exists least,
        ops !! 9%nat = Some least
        /\ (forall x, x ∈ ops -> Milli least <= Milli x)
        /\ (6 <= Milli least -> ops' = ops)
        /\ (Milli least < 6 ->
            exists evicted,
              ops' ++ [evicted] ≡ₚ ops ++ [e]
              /\ evicted ∈ ops /\ Milli evicted = Milli least)).
Proof.
  exact (slow_ops_bounded_and_sorted (fun A : Type => @GoSort.sortSliceInsertion A)
           (GoSortFacts.insertionSort_perm slower)
           (GoSortFacts.insertionSort_ordered slower slower_asym slower_negtrans)
           sevenEntries 6 "h").
Defined.

(** ** Ties in the tracker *)

Lemma sink_sameMilli m e before :
  sameMilli m (rev (GoSort.sink slower e before))
  = sameMilli m (rev before) ++ sameMilli m [e].
Proof.
  unfold sameMilli. induction before as [|y before IH]; cbn [GoSort.sink].
  - reflexivity.
  - destruct (slower e y) eqn:E.
    + cbn [rev]. rewrite !filter_app, IH, <- !app_assoc. f_equal.
      unfold slower in E. rewrite !filter_cons, !filter_nil.
      repeat case_decide; try reflexivity. lia.
    + change (rev (e :: y :: before)) with (rev (y :: before) ++ [e]).
      now rewrite filter_app.
Qed.

(** [insertionSort] is stable. *)
Lemma insertionSort_sameMilli m l :
  sameMilli m (GoSort.insertionSort slower l) = sameMilli m l.
Proof.
  induction l as [|x l IH] using rev_ind; [reflexivity|].
  rewrite GoSortFacts.insertionSort_snoc, sink_sameMilli, rev_involutive, IH.
  unfold sameMilli. now rewrite filter_app.
Qed.

Lemma sameMilli_firstn m n l : sameMilli m (firstn n l) `sublist_of` sameMilli m l.
Proof.
  unfold sameMilli. rewrite <- (take_drop n l) at 2. rewrite filter_app.
  apply sublist_inserts_r. reflexivity.
Qed.

Lemma track_ties entries ops milli str :
  tiesInInsertionOrder entries ops ->
  tiesInInsertionOrder (entries ++ [(milli, str)])
    (trackSlowOp (fun A : Type => @GoSort.sortSliceInsertion A) ops milli str).
Proof.
  intros H m. unfold trackSlowOp.
  assert (E : sameMilli m (map entry (entries ++ [(milli, str)]))
              = sameMilli m (map entry entries) ++ sameMilli m [ {| Milli := milli; Log := str |} ]).
  { rewrite map_app. unfold sameMilli. now rewrite filter_app. }
  rewrite E.
  destruct ((Z.of_nat (length ops) <? 10) || _).
  - assert (S : sameMilli m (GoSort.sortSliceInsertion slower
                               (ops ++ [ {| Milli := milli; Log := str |} ]))
                `sublist_of` sameMilli m (map entry entries)
                              ++ sameMilli m [ {| Milli := milli; Log := str |} ]).
    { unfold GoSort.sortSliceInsertion. rewrite insertionSort_sameMilli.
      unfold sameMilli at 1. rewrite filter_app. apply sublist_app; [apply H | reflexivity]. }
    destruct (_ >? 10); [|exact S].
    etransitivity; [apply sameMilli_firstn | exact S].
  - apply sublist_inserts_r, H.
Qed.

(** C9, amended.  When [sort.Slice] runs the insertion sort alone, as
    it does since Go 1.19 on a slice of at most 12 elements, the
    entries of the slow-operation list that have equal durations
    stand in the order in which they were inserted. *)
Theorem ties_keep_insertion_order_under_insertion_sort (entries : list (Z * gostring)) :
  tiesInInsertionOrder entries (tracked (fun A : Type => @GoSort.sortSliceInsertion A) entries).
Proof.
  induction entries as [|[milli str] entries IH] using rev_ind.
  - intros m. reflexivity.
  - rewrite tracked_snoc. now apply track_ties.
Qed.

(** C9, as stated, fails: [sort.Slice] is not a stable sort.  With
    the algorithm it ran up to Go 1.18 (a ShellSort pass with gap 6,
    then the insertion sort), six entries of 5 ms followed by one of
    7 ms leave the first of the six behind the other five. *)
Lemma ties_are_not_kept_by_sort_Slice :
  tracked (fun A : Type => @GoSort.sortSliceShell A) sevenEntries
  = map entry [ (7, "g" : gostring); (5, "b" : gostring); (5, "c" : gostring);
                (5, "d" : gostring); (5, "e" : gostring); (5, "f" : gostring);
                (5, "a" : gostring) ]
  /\ ~ tiesInInsertionOrder sevenEntries
         (tracked (fun A : Type => @GoSort.sortSliceShell A) sevenEntries).
Proof.
  assert (E : tracked (fun A : Type => @GoSort.sortSliceShell A) sevenEntries
              = map entry [ (7, "g" : gostring); (5, "b" : gostring); (5, "c" : gostring);
                            (5, "d" : gostring); (5, "e" : gostring); (5, "f" : gostring);
                            (5, "a" : gostring) ]) by (vm_compute; reflexivity).
  split; [exact E|]. rewrite E. intros H. specialize (H 5).
  vm_compute in H.
  repeat match goal with
         | S : sublist _ _ |- _ => inversion S; clear S; subst
         end.
Qed.
(** ** The report *)

(** C8, as stated, fails: no minimum is kept by the aggregator and
    the converter leaves [MinMilliseconds] at zero.  For the two
    operations of 120 ms and 80 ms of the scenarios of the
    specification the rendered minimum is 0, not 80. *)
Lemma minimum_is_not_rendered :
  exists doc,
    aggregate [agedShape 120; agedShape 80] !! shapeKey (agedShape 120) = Some doc
    /\ MinMilliseconds (ConverOpPerformanceDocumentToLogInfoLineAnalytics doc) = 0
    /\ MinMilliseconds (ConverOpPerformanceDocumentToLogInfoLineAnalytics doc) <> Z.min 120 80.
Proof.
  rewrite aggregate_lookup.
  exists (summary (agedShape 120) [agedShape 80]).
  split; [vm_compute; reflexivity|]. split; [reflexivity | discriminate].
Qed.

(** C8, amended.  The record rendered for a shape carries the
    count and the total of the occurrences of the shape, their
    quotient as the average, the namespace and index of the last
    occurrence and the command and filter of the first; its
    [minMilliseconds] is always 0. *)
Theorem rendered_statistics (shapes : list shape) (key : gostring) :
  match aggregate shapes !! key, occurrencesOf key shapes with
  | Some doc, first :: rest =>
      let r := ConverOpPerformanceDocumentToLogInfoLineAnalytics doc in
      MinMilliseconds r = 0
      /\ aCount r = fold_left (fun c _ => int_add c 1) rest 1
      /\ TotalMilliseconds r = fold_left (fun t sh => int_add t (sMilli sh)) rest (sMilli first)
      /\ AvgMilliseconds r = PrimFloat.div (float64 (TotalMilliseconds r)) (float64 (aCount r))
      /\ aNamespace r = sNs (List.last rest first)
      /\ IndexUsed r = sIndex (List.last rest first)
      /\ aCommand r = sOp first
      /\ QueryPattern r = sFilter first
  | None, [] => True
  | _, _ => False
  end.
Proof.
  rewrite aggregate_lookup.
  destruct (occurrencesOf key shapes) as [|first rest]; cbn; [exact I|].
  repeat split.
  destruct (eqb (sIndex (List.last rest first)) "") eqn:E.
  - apply GoStrFacts.eqb_eq in E. cbn in E. now rewrite E.
  - cbn in E. now rewrite E.
Qed.

(** ** The cache artifact *)

(** C6, as stated, fails: the artifact does not carry the session
    information.  After a parse of a file with a start-up line,
    [mongoInfo] holds that line; a second run on the artifact gets
    the shapes back and an empty [mongoInfo]. *)
Lemma session_info_is_not_cached :
  match Analyze MongoLogGet sampleSort sampleIndent sampleRange
          (NewLogInfo "mongod.log" "mongod.log") (LogFile sampleFile) with
  | Analyzed li (Some (name, data)) =>
      match Analyze MongoLogGet sampleSort sampleIndent sampleRange
              (NewLogInfo name name) (ArtifactFile data) with
      | Analyzed li' None =>
          name = "mongod.log.enc"
          /\ OpsPatterns li' = OpsPatterns li
          /\ mongoInfo li = "db version v4.0.5" ++ [newline]
          /\ mongoInfo li' = []
          /\ mongoInfo li' <> mongoInfo li
      | _ => False
      end
  | _ => False
  end.
Proof. vm_compute. repeat split; discriminate. Qed.

Lemma default_nonZero {A} (l : list A) : default [] (nonZero l) = l.
Proof. now destruct l. Qed.

(** C6, amended.  Decoding the artifact of a [LogInfo] in a run on a
    file whose name ends in [.enc] gives back its shape statistics and
    its slow-operation list; the session information is not part of
    the artifact and comes back empty, and the name of the output
    file is cleared. *)
Theorem cache_round_trip_of_exported_fields
  (Get : gostring -> gostring -> gostring)
  (sortSlice : forall A : Type, (A -> A -> bool) -> list A -> list A)
  (jsonIndent : gostring -> gostring)
  (rangeValues : gmap gostring OpPerformanceDoc -> list OpPerformanceDoc)
  (li : LogInfo) (fname base : gostring) :
  HasSuffix fname ".enc" = true ->
  Analyze Get sortSlice jsonIndent rangeValues (NewLogInfo fname base)
    (ArtifactFile (gobEncode li))
  = Analyzed {| OpsPatterns := OpsPatterns li; OutputFilename := [];
                SlowOpsList := SlowOpsList li;
                collscan := false; filename := fname; mongoInfo := [];
                silent := false; verbose := false |} None.
Proof.
  intros H. unfold Analyze. cbn [filename NewLogInfo]. rewrite H.
  unfold gobDecode, gobEncode. cbn - [HasSuffix].
  now rewrite !default_nonZero.
Qed.

Lemma cache_round_trip_of_exported_fields_witness :
  Analyze MongoLogGet sampleSort sampleIndent sampleRange
    (NewLogInfo "mongod.log.enc" "mongod.log.enc")
    (ArtifactFile (gobEncode
       {| OpsPatterns := [summary (agedShape 120) [agedShape 80]];
          OutputFilename := "mongod.log.enc";
          SlowOpsList := [entry (120, "a" : gostring); entry (80, "b" : gostring)];
          collscan := false; filename := "mongod.log";
          mongoInfo := "db version v4.0.5" ++ [newline];
          silent := false; verbose := false |}))
  = Analyzed {| OpsPatterns := [summary (agedShape 120) [agedShape 80]];
                OutputFilename := [];
                SlowOpsList := [entry (120, "a" : gostring); entry (80, "b" : gostring)];
                collscan := false; filename := "mongod.log.enc"; mongoInfo := [];
                silent := false; verbose := false |} None.
Proof.
  apply (cache_round_trip_of_exported_fields MongoLogGet sampleSort sampleIndent sampleRange
           {| OpsPatterns := [summary (agedShape 120) [agedShape 80]];
              OutputFilename := "mongod.log.enc";
              SlowOpsList := [entry (120, "a" : gostring); entry (80, "b" : gostring)];
              collscan := false; filename := "mongod.log";
              mongoInfo := "db version v4.0.5" ++ [newline];
              silent := false; verbose := false |}
           "mongod.log.enc" "mongod.log.enc").
  vm_compute; reflexivity.
Defined.

(** ** The truncation of the enumerations *)













(** ** Canonicalization *)







(** ** What reaches the report *)

Import Notions.

Lemma extractShape_reportable Get collscanOnly str result sh :
  extractShape Get collscanOnly str result = Done sh -> reportableShape collscanOnly sh.
Proof.
  unfold extractShape. intros H.
  destruct (collscanOnly && _) eqn:Ec; [discriminate|].
  destruct (eqb _ _ || _) eqn:En; [discriminate|].
  apply orb_false_iff in En as [En1 En2].
  apply bind_Done in H as (flt & _ & H).
  apply bind_Done in H as ([op flt'] & _ & H).
  destruct (negb (hasFilter op)) eqn:Eh; [discriminate|].
  apply bind_Done in H as ([flt'' agg] & _ & H).
  apply bind_Done in H as (canon & _ & H).
  injection H as <-. unfold reportableShape. cbn.
  split; [now apply negb_false_iff in Eh|].
  split; [now apply GoStrFacts.eqb_neq in En1|].
  split; [exact En2|].
  intros ->. cbn in Ec. apply negb_false_iff in Ec. now apply GoStrFacts.eqb_eq in Ec.
Qed.

Lemma shapesOf_reportable Get collscanOnly lines :
  Forall (reportableShape collscanOnly) (shapesOf Get collscanOnly lines).
Proof.
  apply Forall_forall. intros sh Hsh. unfold shapesOf in Hsh.
  apply list_elem_of_omap in Hsh as (str & _ & Q). unfold qualifying in Q.
  destruct (FindStringSubmatch matched str) as [result|]; [|discriminate].
  destruct (extractShape Get collscanOnly str result) eqn:E; try discriminate.
  injection Q as <-. eapply extractShape_reportable, E.
Qed.

Lemma updateOps_reportable c m sh :
  map_Forall (fun _ doc => reportable c doc) m -> reportableShape c sh ->
  map_Forall (fun _ doc => reportable c doc)
    (updateOps m (shapeKey sh) (sOp sh) (sNs sh) (sFilter sh) (sScan sh) (sIndex sh) (sMilli sh)).
Proof.
  intros Hm (Q1 & Q2 & Q3 & Q4). unfold updateOps.
  destruct (m !! shapeKey sh) as [old|] eqn:E.
  - apply map_Forall_insert_2; [|exact Hm].
    destruct (Hm _ _ E) as (P1 & _). repeat split; cbn; auto.
  - apply map_Forall_insert_2; [|exact Hm]. repeat split; cbn; auto.
Qed.

Lemma aggregate_reportable c shapes :
  Forall (reportableShape c) shapes ->
  forall m, map_Forall (fun _ doc => reportable c doc) m ->
  map_Forall (fun _ doc => reportable c doc)
    (fold_left (fun m sh => updateOps m (shapeKey sh) (sOp sh) (sNs sh) (sFilter sh)
                              (sScan sh) (sIndex sh) (sMilli sh)) shapes m).
Proof.
  induction 1 as [|sh shapes Hsh _ IH]; intros m Hm; cbn; [exact Hm|].
  apply IH. now apply updateOps_reportable.
Qed.

(** X1.  Whatever the log holds, every statistic of the report of a
    pass is for one of the nine operations of [filters], for a
    namespace that is neither [local.oplog.rs] nor a [$cmd]
    pseudo-collection, and, when the pass was asked for collection
    scans only, for a collection scan.  The sorting function and the
    iteration over the map are those of the Go runtime; all that is
    asked of them is that what they hand on are values of the map. *)
Theorem report_holds_filtered_operations_only
  (Get : gostring -> gostring -> gostring)
  (sortSlice : forall A : Type, (A -> A -> bool) -> list A -> list A)
  (jsonIndent : gostring -> gostring)
  (rangeValues : gmap gostring OpPerformanceDoc -> list OpPerformanceDoc)
  (li li' : LogInfo) (file : list (list gostring)) :
  (forall m doc, doc ∈ sortSlice OpPerformanceDoc greaterAverage (rangeValues m) ->
                 exists key, m !! key = Some doc) ->
  Parse Get sortSlice jsonIndent rangeValues li file = Some li' ->
  Forall (reportable (collscan li)) (OpsPatterns li').
Proof.
  intros Hvalues HP. unfold Parse in HP.
  destruct (parseLines _ _ _ _ _) as [st|] eqn:E; [|discriminate].
  cbn in HP. injection HP as <-. cbn [OpsPatterns].
  apply parseLines_folds in E as [_ E]. cbn [opsMap] in E.
  apply Forall_forall. intros doc Hdoc.
  apply Hvalues in Hdoc as [key Hkey]. rewrite E in Hkey.
  pose proof (aggregate_reportable (collscan li) _
                (shapesOf_reportable Get (collscan li) (map (@concat ascii) file))
                ∅ (map_Forall_empty _)) as F.
  exact (F _ _ Hkey).
Qed.

Lemma sample_values_of_map (m : gmap gostring OpPerformanceDoc) (doc : OpPerformanceDoc) :
  doc ∈ sampleSort OpPerformanceDoc greaterAverage (sampleRange m) ->
  exists key, m !! key = Some doc.
Proof.
  unfold sampleSort, sampleRange, GoSort.sortSliceInsertion. intros H.
  rewrite (GoSortFacts.insertionSort_perm greaterAverage) in H.
  apply list_elem_of_fmap in H as ([key d] & -> & H).
  apply elem_of_map_to_list in H. now exists key.
Qed.

Lemma report_holds_filtered_operations_only_witness :
  match Parse MongoLogGet sampleSort sampleIndent sampleRange
          (NewLogInfo "mongod.log" "mongod.log") sampleFile with
  | Some li' => length (OpsPatterns li') = 2%nat /\ Forall (reportable false) (OpsPatterns li')
  | None => False
  end.
Proof.
  destruct (Parse MongoLogGet sampleSort sampleIndent sampleRange
              (NewLogInfo "mongod.log" "mongod.log") sampleFile) as [li'|] eqn:E.
  - split.
    + vm_compute in E. injection E as <-. reflexivity.
    + exact (report_holds_filtered_operations_only MongoLogGet sampleSort sampleIndent
               sampleRange (NewLogInfo "mongod.log" "mongod.log") li' sampleFile
               sample_values_of_map E).
  - vm_compute in E. discriminate.
Defined.

End MdbFacts.
